(** * imposm3: tag filters (mapping/filter.go) and OSC change parser
      (update/parser/parser.go)

    A shallow embedding of the two Go files and the properties of their
    specification.  Go maps are stdpp [gmap]s, a nil map or nil pointer is
    [None], 64-bit integers are [Z] with the clamping of [strconv.ParseInt]
    written out, and the two channels of the parser are a trace of channel
    actions. *)

From Stdlib Require Import ZArith Ascii String List Lia Bool.
From stdpp Require Import base option list gmap strings fin_maps.

Open Scope string_scope.
Open Scope list_scope.
Open Scope Z_scope.

(** ** mapping/filter.go *)

Module mapping.

(** [type TagFilter struct { mappings map[string]map[string][]string;
    extraTags map[string]bool }].  Both maps are only ever asked whether a
    key is present. *)
Record TagFilter := mkTagFilter {
  mappings : gmap string (gmap string (list string));
  extraTags : gmap string bool
}.

(** [type RelationTagFilter struct { TagFilter }] *)
Record RelationTagFilter := mkRelationTagFilter {
  TagFilter_of : TagFilter
}.

(** The part of [Mapping] that filter.go uses: the two methods that add the
    rules and the extra tags of one geometry type to a map passed in.  The
    methods themselves live in another file of the package, so a [Mapping]
    is given here by what they do to the map they receive. *)
Record Mapping := mkMapping {
  Mapping_mappings :
    string -> gmap string (gmap string (list string)) ->
    gmap string (gmap string (list string));
  Mapping_extraTags : string -> gmap string bool -> gmap string bool
}.

(** [func (m *Mapping) NodeTagFilter() *TagFilter] *)
Definition NodeTagFilter (m : Mapping) : TagFilter :=
  let mappings := Mapping_mappings m "point" ∅ in
  let tags := Mapping_extraTags m "point" ∅ in
  mkTagFilter mappings tags.

(** [func (m *Mapping) WayTagFilter() *TagFilter] *)
Definition WayTagFilter (m : Mapping) : TagFilter :=
  let mappings := Mapping_mappings m "linestring" ∅ in
  let mappings := Mapping_mappings m "polygon" mappings in
  let tags := Mapping_extraTags m "linestring" ∅ in
  let tags := Mapping_extraTags m "polygon" tags in
  mkTagFilter mappings tags.

(** [func (m *Mapping) RelationTagFilter() *RelationTagFilter]; line 28
    puts ["type"] into the extra tags after the mapping has filled them. *)
Definition NewRelationTagFilter (m : Mapping) : RelationTagFilter :=
  let mappings := Mapping_mappings m "linestring" ∅ in
  let mappings := Mapping_mappings m "polygon" mappings in
  let tags := Mapping_extraTags m "linestring" ∅ in
  let tags := Mapping_extraTags m "polygon" tags in
  let tags := <["type" := true]> tags in
  mkRelationTagFilter (mkTagFilter mappings tags).

(** Lines 44-51: the key has a rule whose value set holds ["__any__"] or the
    tag's own value; this is what sets [foundMapping]. *)
Definition found (f : TagFilter) (k v : string) : bool :=
  match mappings f !! k with
  | Some values =>
      if bool_decide (is_Some (values !! "__any__")) then true
      else bool_decide (is_Some (values !! v))
  | None => false
  end.

(** One round of the loop body, lines 44-57, on the entry [(k, v)]: the
    tag map and [foundMapping] before and after. *)
Definition Filter_body (f : TagFilter) (st : gmap string string * bool)
    (kv : string * string) : gmap string string * bool :=
  let '(tags, foundMapping) := st in
  let '(k, v) := kv in
  match mappings f !! k with
  | Some values =>
      if bool_decide (is_Some (values !! "__any__")) then (tags, true)
      else if bool_decide (is_Some (values !! v)) then (tags, true)
      else if bool_decide (is_Some (extraTags f !! k)) then (tags, foundMapping)
      else (delete k tags, foundMapping)
  | None =>
      if bool_decide (is_Some (extraTags f !! k)) then (tags, foundMapping)
      else (delete k tags, foundMapping)
  end.

(** [for k, v := range tags] visiting the entries in the order [entries].
    The body deletes no key other than the one it is visiting, so every
    entry of the map at loop entry is visited once. *)
Definition Filter_range (f : TagFilter) (entries : list (string * string))
    (st : gmap string string * bool) : gmap string string * bool :=
  foldl (Filter_body f) st entries.

(** [func (f *TagFilter) Filter(tags map[string]string) bool]: the tag map
    after the call and the returned boolean. *)
Definition Filter (f : TagFilter) (tags : gmap string string)
    : gmap string string * bool :=
  Filter_range f (map_to_list tags) (tags, false).

(** [func (f *RelationTagFilter) Filter(tags map[string]string) bool] *)
Definition RelationFilter (f : RelationTagFilter) (tags : gmap string string)
    : gmap string string * bool :=
  match tags !! "type" with
  | Some t =>
      if bool_decide (t ≠ "multipolygon") && bool_decide (t ≠ "boundary")
         && bool_decide (t ≠ "land_area")
      then (tags, false)
      else (fst (Filter (TagFilter_of f) tags), true)
  | None => (tags, false)
  end.

(** The entry survives the loop body: it matched a rule or its key is an
    extra tag. *)
Definition retained (f : TagFilter) (k v : string) : bool :=
  found f k v || bool_decide (is_Some (extraTags f !! k)).

(** The visited entry's key stays or goes. *)
Definition prune (f : TagFilter) (tags : gmap string string)
    (kv : string * string) : gmap string string :=
  if retained f kv.1 kv.2 then tags else delete kv.1 tags.

(** The three ways of the specification for a key to stay: (a) its rule
    holds the wildcard, (b) its rule holds the tag's value, (c) the key is
    always retained. *)
Definition any_rule (f : TagFilter) (k : string) : Prop :=
  exists values, mappings f !! k = Some values /\ is_Some (values !! "__any__").

Definition value_rule (f : TagFilter) (k v : string) : Prop :=
  exists values, mappings f !! k = Some values /\ is_Some (values !! v).

Definition always_retained (f : TagFilter) (k : string) : Prop :=
  is_Some (extraTags f !! k).

(** The structural types a relation is accepted for, line 68. *)
Definition accepted_types : list string :=
  ["multipolygon"; "boundary"; "land_area"].

End mapping.

(** ** The libraries the parser calls *)

(** [strconv.ParseInt(s, 10, 64)], after the Go standard library: an
    optional sign, then [ParseUint] over the digits from left to right.  A
    character that is no decimal digit gives [(0, ErrSyntax)]; a value that
    does not fit gives the nearest bound and [ErrRange], and this is
    reported as soon as the digits read so far overflow, before the rest of
    the text is looked at. *)
Module strconv.

Inductive NumError := ErrSyntax | ErrRange.

Definition maxUint64 : Z := 2 ^ 64 - 1.

(** [int64(x)] of a 64-bit pattern. *)
Definition to_int64 (x : Z) : Z := (x + 2 ^ 63) mod 2 ^ 64 - 2 ^ 63.

(** The loop of [ParseUint] for base 10 and bit size 64; [n] is a uint64. *)
Fixpoint ParseUint_loop (s : string) (n : Z) : Z * option NumError :=
  match s with
  | EmptyString => (n, None)
  | String c s' =>
      let c := Z.of_N (N_of_ascii c) in
      if (48 <=? c) && (c <=? 57) then
        let d := c - 48 in
        if maxUint64 / 10 + 1 <=? n then (maxUint64, Some ErrRange)
        else
          let n := n * 10 in
          let n1 := (n + d) mod 2 ^ 64 in
          if (n1 <? n) || (maxUint64 <? n1) then (maxUint64, Some ErrRange)
          else ParseUint_loop s' n1
      else (0, Some ErrSyntax)
  end.

Definition ParseUint (s : string) : Z * option NumError :=
  match s with
  | EmptyString => (0, Some ErrSyntax)
  | _ => ParseUint_loop s 0
  end.

Definition ParseInt (s : string) : Z * option NumError :=
  match s with
  | EmptyString => (0, Some ErrSyntax)
  | String c rest =>
      let '(neg, s1) :=
        if Ascii.eqb c "+" then (false, rest)
        else if Ascii.eqb c "-" then (true, rest)
        else (false, s) in
      match ParseUint s1 with
      | (_, Some ErrSyntax) => (0, Some ErrSyntax)
      | (un, _) =>
          let cutoff := 2 ^ 63 in
          if negb neg && (cutoff <=? un) then (cutoff - 1, Some ErrRange)
          else if neg && (cutoff <? un) then (- cutoff, Some ErrRange)
          else
            let n := to_int64 un in
            (if neg then to_int64 (- n) else n, None)
      end
  end.

End strconv.

(** The tokens of [encoding/xml] that the parser tells apart. *)
Module xml.

Record Name := mkName { Space : string; Local : string }.

Record Attr := mkAttr { Attr_Name : Name; Value : string }.

Inductive Token :=
  | StartElement (name : Name) (attr : list Attr)
  | EndElement (name : Name)
  | CharData (data : string)
  | Comment (data : string)
  | ProcInst (target inst : string)
  | Directive (data : string).

End xml.

(** What the parser takes from outside its own file and is not modelled
    down to the bit: [float64] with [strconv.ParseFloat(s, 64)], [time.Time]
    with [time.Parse(time.RFC3339, s)], and the member types of package
    [element] with the table [element.MemberTypeValues].  The two laws are
    the documented results of the two library calls when they fail: a text
    that is no number gives the float 0, and a text that is no timestamp
    gives the zero time. *)
Class Extern := {
  float64 : Type;
  float64_zero : float64;
  ParseFloat : string -> float64 * option strconv.NumError;
  ParseFloat_ErrSyntax :
    forall s x, ParseFloat s = (x, Some strconv.ErrSyntax) -> x = float64_zero;
  Time : Type;
  Time_zero : Time;
  time_Parse_RFC3339 : string -> Time * bool;
  time_Parse_error :
    forall s t, time_Parse_RFC3339 s = (t, true) -> t = Time_zero;
  MemberType : Type;
  MemberType_zero : MemberType;
  MemberTypeValues : gmap string MemberType
}.

(** ** Package element *)

Module element.
Section records.
Context `{Extern}.

(** Modelled from the spec: package [element] is not among the sources; the
    spec's feature record (identifier, tag set, optional provenance
    metadata, coordinates, referenced nodes, member triples) is given the
    field names parser.go reads and writes.  A nil map and a nil pointer
    are [None]; [int] is taken as 64 bits wide, so int(v) of an int64 is
    [v]. *)
Record Metadata := mkMetadata {
  UserId : Z;
  UserName : string;
  Version : Z;
  Timestamp : Time;
  Changeset : Z
}.

Record OSMElem := mkOSMElem {
  Id : Z;
  Tags : option (gmap string string);
  Meta : option Metadata
}.

Record Node := mkNode {
  Node_OSMElem : OSMElem;
  Lat : float64;
  Long : float64
}.

Record Way := mkWay {
  Way_OSMElem : OSMElem;
  Refs : list Z
}.

Record Member := mkMember {
  Member_Id : Z;
  Member_Type : MemberType;
  Role : string
}.

Record Relation := mkRelation {
  Relation_OSMElem : OSMElem;
  Members : list Member
}.

(** The zero values [Metadata{}], [OSMElem{}], [Node{}], [Way{}],
    [Relation{}] and [Member{}]. *)
Definition Metadata_zero : Metadata := mkMetadata 0 "" 0 Time_zero 0.
Definition OSMElem_zero : OSMElem := mkOSMElem 0 None None.
Definition Node_zero : Node := mkNode OSMElem_zero float64_zero float64_zero.
Definition Way_zero : Way := mkWay OSMElem_zero [].
Definition Relation_zero : Relation := mkRelation OSMElem_zero [].
Definition Member_zero : Member := mkMember 0 MemberType_zero "".

Definition set_Id (v : Z) (e : OSMElem) : OSMElem :=
  mkOSMElem v (Tags e) (Meta e).
Definition set_Tags (t : gmap string string) (e : OSMElem) : OSMElem :=
  mkOSMElem (Id e) (Some t) (Meta e).
Definition set_Meta (m : Metadata) (e : OSMElem) : OSMElem :=
  mkOSMElem (Id e) (Tags e) (Some m).

End records.
End element.

(** ** update/parser/parser.go *)

Module parser.
Import xml element.
Section parse.
Context `{Extern}.

(** [type DiffElem struct]; the three pointers are [None] when nil. *)
Record DiffElem := mkDiffElem {
  Add : bool;
  Mod : bool;
  Del : bool;
  DNode : option Node;
  DWay : option Way;
  DRel : option Relation
}.

(** The local variables of [parse] that live across rounds of the token
    loop (lines 58-66). *)
Record State := mkState {
  add : bool;
  mod_ : bool;
  del : bool;
  tags : gmap string string;
  newElem : bool;
  node : Node;
  way : Way;
  rel : Relation
}.

(** Lines 58-66. *)
Definition init : State :=
  mkState false false false ∅ false Node_zero Way_zero Relation_zero.

Definition set_flags (a m d : bool) (st : State) : State :=
  mkState a m d (tags st) (newElem st) (node st) (way st) (rel st).
Definition set_tags (t : gmap string string) (st : State) : State :=
  mkState (add st) (mod_ st) (del st) t (newElem st) (node st) (way st) (rel st).
Definition set_newElem (b : bool) (st : State) : State :=
  mkState (add st) (mod_ st) (del st) (tags st) b (node st) (way st) (rel st).
Definition set_node (n : Node) (st : State) : State :=
  mkState (add st) (mod_ st) (del st) (tags st) (newElem st) n (way st) (rel st).
Definition set_way (w : Way) (st : State) : State :=
  mkState (add st) (mod_ st) (del st) (tags st) (newElem st) (node st) w (rel st).
Definition set_rel (r : Relation) (st : State) : State :=
  mkState (add st) (mod_ st) (del st) (tags st) (newElem st) (node st) (way st) r.

Definition attr_is (a : Attr) (name : string) : bool :=
  String.eqb (Local (Attr_Name a)) name.

(** [func setElemMetadata(attrs []xml.Attr, elem *element.OSMElem)] *)
Definition setElemMetadata_attr (m : Metadata) (a : Attr) : Metadata :=
  if attr_is a "version" then
    mkMetadata (UserId m) (UserName m) (fst (strconv.ParseInt (Value a)))
      (Timestamp m) (Changeset m)
  else if attr_is a "uid" then
    mkMetadata (fst (strconv.ParseInt (Value a))) (UserName m) (Version m)
      (Timestamp m) (Changeset m)
  else if attr_is a "user" then
    mkMetadata (UserId m) (Value a) (Version m) (Timestamp m) (Changeset m)
  else if attr_is a "changeset" then
    mkMetadata (UserId m) (UserName m) (Version m) (Timestamp m)
      (fst (strconv.ParseInt (Value a)))
  else if attr_is a "timestamp" then
    mkMetadata (UserId m) (UserName m) (Version m)
      (fst (time_Parse_RFC3339 (Value a))) (Changeset m)
  else m.

Definition setElemMetadata (attrs : list Attr) (elem : OSMElem) : OSMElem :=
  set_Meta (foldl setElemMetadata_attr Metadata_zero attrs) elem.

(** Lines 92-101: the attributes of a [node] start tag. *)
Definition node_attr (n : Node) (a : Attr) : Node :=
  if attr_is a "id" then
    mkNode (set_Id (fst (strconv.ParseInt (Value a))) (Node_OSMElem n))
      (Lat n) (Long n)
  else if attr_is a "lat" then
    mkNode (Node_OSMElem n) (fst (ParseFloat (Value a))) (Long n)
  else if attr_is a "lon" then
    mkNode (Node_OSMElem n) (Lat n) (fst (ParseFloat (Value a)))
  else n.

(** Lines 106-110 and 115-119: the [id] attribute of a [way] or
    [relation] start tag. *)
Definition id_attr (e : OSMElem) (a : Attr) : OSMElem :=
  if attr_is a "id" then set_Id (fst (strconv.ParseInt (Value a))) e else e.

(** Lines 124-129: every [ref] attribute of an [nd] start tag appends. *)
Definition nd_attr (w : Way) (a : Attr) : Way :=
  if attr_is a "ref" then
    mkWay (Way_OSMElem w) (Refs w ++ [fst (strconv.ParseInt (Value a))])
  else w.

(** Lines 131-151: the attributes of a [member] start tag, in order;
    [None] is [continue NextToken]. *)
Fixpoint member_attrs (m : Member) (attrs : list Attr) : option Member :=
  match attrs with
  | [] => Some m
  | a :: attrs' =>
      if attr_is a "type" then
        match MemberTypeValues !! Value a with
        | Some t => member_attrs (mkMember (Member_Id m) t (Role m)) attrs'
        | None => None
        end
      else if attr_is a "role" then
        member_attrs (mkMember (Member_Id m) (Member_Type m) (Value a)) attrs'
      else if attr_is a "ref" then
        match strconv.ParseInt (Value a) with
        | (id, None) =>
            member_attrs (mkMember id (Member_Type m) (Role m)) attrs'
        | (_, Some _) => None
        end
      else member_attrs m attrs'
  end.

(** Lines 154-161: the [k] and [v] attributes of a [tag] start tag. *)
Definition tag_attr (kv : string * string) (a : Attr) : string * string :=
  if attr_is a "k" then (Value a, snd kv)
  else if attr_is a "v" then (fst kv, Value a)
  else kv.

(** [case xml.StartElement], lines 77-167.  An unhandled tag is logged
    and changes nothing. *)
Definition startElement (metadata : bool) (st : State) (name : Name)
    (attr : list Attr) : State :=
  let l := Local name in
  if String.eqb l "create" then set_flags true false false st
  else if String.eqb l "modify" then set_flags false true false st
  else if String.eqb l "delete" then set_flags false false true st
  else if String.eqb l "node" then
    let n := foldl node_attr (node st) attr in
    let n :=
      if metadata
      then mkNode (setElemMetadata attr (Node_OSMElem n)) (Lat n) (Long n)
      else n in
    set_node n st
  else if String.eqb l "way" then
    let w := way st in
    let e := foldl id_attr (Way_OSMElem w) attr in
    let e := if metadata then setElemMetadata attr e else e in
    set_way (mkWay e (Refs w)) st
  else if String.eqb l "relation" then
    let r := rel st in
    let e := foldl id_attr (Relation_OSMElem r) attr in
    let e := if metadata then setElemMetadata attr e else e in
    set_rel (mkRelation e (Members r)) st
  else if String.eqb l "nd" then
    set_way (foldl nd_attr (way st) attr) st
  else if String.eqb l "member" then
    match member_attrs Member_zero attr with
    | Some member =>
        let r := rel st in
        set_rel (mkRelation (Relation_OSMElem r) (Members r ++ [member])) st
    | None => st
    end
  else if String.eqb l "tag" then
    let '(k, v) := foldl tag_attr ("", "") attr in
    set_tags (<[k := v]> (tags st)) st
  else if String.eqb l "osmChange" then st
  else st.

Definition DiffElem_zero : DiffElem :=
  mkDiffElem false false false None None None.

(** [if len(tags) > 0 { x.Tags = tags }] *)
Definition attach_tags (t : gmap string string) (e : OSMElem) : OSMElem :=
  if bool_decide (0 < size t)%nat then set_Tags t e else e.

(** What one round of the loop does next. *)
Inductive Round :=
  | Next (st : State) (sent : option DiffElem)
  | Return.

(** Lines 196-205, with [e] as the switch above left it. *)
Definition emit (st : State) (e : DiffElem) : Round :=
  if newElem st then
    let e := mkDiffElem (add st) (mod_ st) (del st) (DNode e) (DWay e) (DRel e) in
    let st :=
      if bool_decide (0 < size (tags st))%nat then set_tags ∅ st else st in
    Next (set_newElem false st) (Some e)
  else Next st None.

(** [case xml.EndElement], lines 168-206. *)
Definition endElement (st : State) (name : Name) : Round :=
  let e := DiffElem_zero in
  let l := Local name in
  if String.eqb l "node" then
    let n := node st in
    let n := mkNode (attach_tags (tags st) (Node_OSMElem n)) (Lat n) (Long n) in
    let e := mkDiffElem (Add e) (Mod e) (Del e) (Some n) (DWay e) (DRel e) in
    emit (set_newElem true (set_node Node_zero st)) e
  else if String.eqb l "way" then
    let w := way st in
    let w := mkWay (attach_tags (tags st) (Way_OSMElem w)) (Refs w) in
    let e := mkDiffElem (Add e) (Mod e) (Del e) (DNode e) (Some w) (DRel e) in
    emit (set_newElem true (set_way Way_zero st)) e
  else if String.eqb l "relation" then
    let r := rel st in
    let r := mkRelation (attach_tags (tags st) (Relation_OSMElem r)) (Members r) in
    let e := mkDiffElem (Add e) (Mod e) (Del e) (DNode e) (DWay e) (Some r) in
    emit (set_newElem true (set_rel Relation_zero st)) e
  else if String.eqb l "osmChange" then Return
  else emit st e.

(** The body of the token loop for one token, lines 76-206. *)
Definition round (metadata : bool) (st : State) (tok : Token) : Round :=
  match tok with
  | StartElement name attr => Next (startElement metadata st name attr) None
  | EndElement name => endElement st name
  | _ => Next st None
  end.

(** What [parse] does that its caller can see, in order. *)
Inductive Action :=
  | SendElem (e : DiffElem)
  | SendErr (err : string)
  | CloseFile
  | CloseErrc
  | CloseElems.

(** The loop [NextToken], lines 68-207: [toks] are the tokens
    [decoder.Token()] returns before it returns the error [err] (which is
    [io.EOF] at the end of the input). *)
Fixpoint loop (metadata : bool) (st : State) (toks : list Token)
    (err : string) : list Action :=
  match toks with
  | [] => [SendErr err]
  | tok :: toks' =>
      match round metadata st tok with
      | Return => []
      | Next st' None => loop metadata st' toks' err
      | Next st' (Some e) => SendElem e :: loop metadata st' toks' err
      end
  end.

(** What the outside gives for the path [diff]: [os.Open] fails, or
    [gzip.NewReader] fails, or the decoder yields tokens up to an error. *)
Inductive Input :=
  | OpenError (err : string)
  | GzipError (err : string)
  | Tokens (toks : list Token) (err : string).

(** [func parse(diff string, elems chan DiffElem, errc chan error,
    metadata bool)]; the deferred calls run in reverse order at every
    return. *)
Definition parse (diff : Input) (metadata : bool) : list Action :=
  match diff with
  | OpenError err => [SendErr err] ++ [CloseErrc; CloseElems]
  | GzipError err => [SendErr err] ++ [CloseFile; CloseErrc; CloseElems]
  | Tokens toks err =>
      loop metadata init toks err ++ [CloseFile; CloseErrc; CloseElems]
  end.

(** [Parse] and [ParseFull], lines 25-37. *)
Definition Parse (diff : Input) : list Action := parse diff false.

End parse.
End parser.

(** ** The change file format *)

(** A change file as the format lays it out: inside [osmChange], sections
    [create], [modify] and [delete]; inside a section, [node], [way] and
    [relation] elements; inside these, [tag], [nd] and [member] children.
    [tokens] is the sequence of start and end tags of such a file; character
    data, comments and processing instructions may stand between them. *)
Module osc.
Import xml.

Inductive Op := Create | Modify | Delete.
Inductive Kind := KNode | KWay | KRelation.
Inductive ChildKind := CTag | CNd | CMember.

Record Child := mkChild { child_kind : ChildKind; child_attr : list Attr }.

Record Feature := mkFeature {
  kind : Kind;
  feature_attr : list Attr;
  children : list Child
}.

Record Section_ := mkSection {
  op : Op;
  section_attr : list Attr;
  features : list Feature
}.

Record File := mkFile {
  file_attr : list Attr;
  sections : list Section_
}.

Definition op_name (o : Op) : string :=
  match o with Create => "create" | Modify => "modify" | Delete => "delete" end.

Definition kind_name (k : Kind) : string :=
  match k with KNode => "node" | KWay => "way" | KRelation => "relation" end.

Definition child_name (c : ChildKind) : string :=
  match c with CTag => "tag" | CNd => "nd" | CMember => "member" end.

Definition element (name : string) (attr : list Attr) (inner : list Token)
    : list Token :=
  StartElement (mkName "" name) attr :: inner ++ [EndElement (mkName "" name)].

Definition child_tokens (c : Child) : list Token :=
  element (child_name (child_kind c)) (child_attr c) [].

Definition feature_tokens (f : Feature) : list Token :=
  element (kind_name (kind f)) (feature_attr f)
    (concat (map child_tokens (children f))).

Definition section_tokens (s : Section_) : list Token :=
  element (op_name (op s)) (section_attr s)
    (concat (map feature_tokens (features s))).

Definition tokens (d : File) : list Token :=
  element "osmChange" (file_attr d) (concat (map section_tokens (sections d))).

(** A start or end tag, as opposed to text between the tags. *)
Definition is_tag (tok : Token) : bool :=
  match tok with
  | StartElement _ _ | EndElement _ => true
  | _ => false
  end.

(** The value of the last attribute called [name]. *)
Definition attr_value (name : string) (attr : list Attr) : option string :=
  Value <$> last (filter (fun a => Local (Attr_Name a) = name) attr).

(** The elements of the file in the order they close, each with the
    operation of its section. *)
Definition file_features (d : File) : list (Op * Feature) :=
  concat (map (fun s => map (fun f => (op s, f)) (features s)) (sections d)).

(** [</node>], [</way>] or [</relation>]. *)
Definition closes_feature (tok : Token) : bool :=
  match tok with
  | EndElement name =>
      String.eqb (Local name) "node" || String.eqb (Local name) "way"
      || String.eqb (Local name) "relation"
  | _ => false
  end.

(** [</osmChange>]. *)
Definition closes_file (tok : Token) : bool :=
  match tok with
  | EndElement name => String.eqb (Local name) "osmChange"
  | _ => false
  end.

(** [<create>], [<modify>] or [<delete>]. *)
Definition opens_section (tok : Token) : bool :=
  match tok with
  | StartElement name _ =>
      String.eqb (Local name) "create" || String.eqb (Local name) "modify"
      || String.eqb (Local name) "delete"
  | _ => false
  end.

(** The tokens before the first [</osmChange>]. *)
Fixpoint before_close (toks : list Token) : list Token :=
  match toks with
  | [] => []
  | tok :: toks' => if closes_file tok then [] else tok :: before_close toks'
  end.

End osc.

(** ** Reading the events off a trace *)

Module events.
Import xml element parser osc.
Section events.
Context `{Extern}.

Definition sent (a : Action) : option DiffElem :=
  match a with SendElem e => Some e | _ => None end.

(** The events sent on [elems], in order. *)
Definition elems (tr : list Action) : list DiffElem := omap sent tr.

(** The errors sent on [errc], in order. *)
Definition errs (tr : list Action) : list string :=
  omap (fun a => match a with SendErr e => Some e | _ => None end) tr.

Definition present (A : Type) (o : option A) : nat :=
  match o with Some _ => 1%nat | None => 0%nat end.

Definition payloads (e : DiffElem) : nat :=
  (present _ (DNode e) + present _ (DWay e) + present _ (DRel e))%nat.

Definition count_true (fl : bool * bool * bool) : nat :=
  let '(a, m, d) := fl in
  ((if a then 1 else 0) + (if m then 1 else 0) + (if d then 1 else 0))%nat.

Definition flags (e : DiffElem) : nat := count_true (Add e, Mod e, Del e).

Definition event_kind (e : DiffElem) : option Kind :=
  match DNode e, DWay e, DRel e with
  | Some _, None, None => Some KNode
  | None, Some _, None => Some KWay
  | None, None, Some _ => Some KRelation
  | _, _, _ => None
  end.

Definition event_op (e : DiffElem) : option Op :=
  match Add e, Mod e, Del e with
  | true, false, false => Some Create
  | false, true, false => Some Modify
  | false, false, true => Some Delete
  | _, _, _ => None
  end.

Definition event_id (e : DiffElem) : option Z :=
  match DNode e, DWay e, DRel e with
  | Some n, None, None => Some (Id (Node_OSMElem n))
  | None, Some w, None => Some (Id (Way_OSMElem w))
  | None, None, Some r => Some (Id (Relation_OSMElem r))
  | _, _, _ => None
  end.

(** The identifier an element's start tag gives it. *)
Definition feature_id (f : Feature) : Z :=
  match attr_value "id" (feature_attr f) with
  | Some s => fst (strconv.ParseInt s)
  | None => 0
  end.

(** What an event says of its element, and what the file says of it. *)
Definition summary (e : DiffElem) : option Kind * option Op * option Z :=
  (event_kind e, event_op e, event_id e).

Definition expected (x : Op * Feature) : option Kind * option Op * option Z :=
  (Some (kind x.2), Some x.1, Some (feature_id x.2)).



(** How the trace of a parse ends. *)
Definition closing : list Action := [CloseFile; CloseErrc; CloseElems].

Definition is_close (a : Action) : bool :=
  match a with
  | CloseFile | CloseErrc | CloseElems => true
  | _ => false
  end.

(** The token loop as a function of the tokens alone: the events sent, and
    the state it is left in unless [</osmChange>] made it return. *)
Fixpoint run (metadata : bool) (st : State) (toks : list Token)
    : list DiffElem * option State :=
  match toks with
  | [] => ([], Some st)
  | tok :: toks' =>
      match round metadata st tok with
      | Return => ([], None)
      | Next st' sent =>
          let '(evs, r) := run metadata st' toks' in
          (option_list sent ++ evs, r)
      end
  end.

(** The three flags a section sets, lines 79-90. *)
Definition op_flags (o : Op) : bool * bool * bool :=
  match o with
  | Create => (true, false, false)
  | Modify => (false, true, false)
  | Delete => (false, false, true)
  end.

Definition state_flags (st : State) : bool * bool * bool :=
  (add st, mod_ st, del st).

Definition event_flags (e : DiffElem) : bool * bool * bool :=
  (Add e, Mod e, Del e).

(** The identifiers in the three scratch elements. *)
Definition state_ids (st : State) : Z * Z * Z :=
  (Id (Node_OSMElem (node st)), Id (Way_OSMElem (way st)),
   Id (Relation_OSMElem (rel st))).

(** The state between two elements of a section with operation [o]. *)
Definition between (o : Op) (st : State) : Prop :=
  newElem st = false /\ state_flags st = op_flags o /\
  state_ids st = (0, 0, 0).

End events.
End events.

(** ** A stand-in for the outside, to run the parser on examples *)

Module sample.
Import strconv.

(** Modelled from the spec: the member kinds of package [element], which is
    not among the sources: point, way and relation, under the names the
    file format gives those elements. *)
Inductive MemberKind := NODE | WAY | RELATION.

Definition member_kinds : gmap string MemberKind :=
  {[ "node" := NODE; "way" := WAY; "relation" := RELATION ]}.

Definition attrs (attr : list (string * string)) : list xml.Attr :=
  map (fun kv => xml.mkAttr (xml.mkName "" kv.1) kv.2) attr.

Definition start (name : string) (attr : list (string * string)) : xml.Token :=
  xml.StartElement (xml.mkName "" name) (attrs attr).

Definition end_ (name : string) : xml.Token :=
  xml.EndElement (xml.mkName "" name).

(** The tokens of scenario A of the specification:
    [<osmChange><modify><node id="1" lat="1.0" lon="2.0"><tag k="amenity"
    v="restaurant"/></node></modify></osmChange>]. *)
Definition scenario_A : list xml.Token :=
  [ start "osmChange" []; start "modify" [];
    start "node" [("id", "1"); ("lat", "1.0"); ("lon", "2.0")];
    start "tag" [("k", "amenity"); ("v", "restaurant")]; end_ "tag";
    end_ "node"; end_ "modify"; end_ "osmChange" ].

(** Scenario B: a relation with three members, the second of them
    [<member type="bogus" ref="5"/>]. *)
Definition scenario_B_before : list xml.Token :=
  [ start "osmChange" []; start "create" [];
    start "relation" [("id", "3")];
    start "member" [("type", "way"); ("ref", "1"); ("role", "outer")];
    end_ "member" ].

Definition scenario_B_after : list xml.Token :=
  [ end_ "member";
    start "member" [("type", "node"); ("ref", "7"); ("role", "")];
    end_ "member";
    end_ "relation"; end_ "create"; end_ "osmChange" ].

(** A change file with a node, a way and a relation in two sections, and
    its tokens with a declaration in front and white space after each
    tag. *)
Definition change_file : osc.File :=
  osc.mkFile (attrs [("version", "0.6")])
    [ osc.mkSection osc.Create []
        [ osc.mkFeature osc.KNode
            (attrs [("id", "1"); ("lat", "1.0"); ("lon", "2.0")])
            [ osc.mkChild osc.CTag (attrs [("k", "amenity"); ("v", "cafe")]) ];
          osc.mkFeature osc.KWay (attrs [("id", "2")])
            [ osc.mkChild osc.CNd (attrs [("ref", "1")]);
              osc.mkChild osc.CNd (attrs [("ref", "5")]) ] ];
      osc.mkSection osc.Delete []
        [ osc.mkFeature osc.KRelation (attrs [("id", "3")])
            [ osc.mkChild osc.CMember
                (attrs [("type", "way"); ("ref", "2"); ("role", "outer")]) ] ] ].

Definition change_tokens : list xml.Token :=
  xml.ProcInst "xml" "version='1.0'"
  :: flat_map (fun t => [t; xml.CharData " "]) (osc.tokens change_file).

(** A node whose identifier is one more than the largest int64. *)
Definition big_id : list xml.Token :=
  [ start "osmChange" []; start "create" [];
    start "node" [("id", "9223372036854775808")]; end_ "node";
    end_ "create"; end_ "osmChange" ].

(** Plain decimal texts, digits with an optional fraction, read as exact
    fractions [(numerator, digits after the point)] without trailing zeros;
    anything else is a syntax error.  This stands in for [float64] on the
    examples, where no rounding happens. *)
Fixpoint digits (s : string) (n : Z) (k : nat) : Z * nat * string :=
  match s with
  | EmptyString => (n, k, EmptyString)
  | String c s' =>
      let x := Z.of_N (N_of_ascii c) in
      if (48 <=? x) && (x <=? 57) then digits s' (n * 10 + (x - 48)) (S k)
      else (n, k, s)
  end.

Fixpoint reduce (k : nat) (n : Z) : Z * nat :=
  match k with
  | O => (n, O)
  | S k' => if n mod 10 =? 0 then reduce k' (n / 10) else (n, k)
  end.

Definition decimal (s : string) : option (Z * nat) :=
  match digits s 0 0 with
  | (n, S _, EmptyString) => Some (n, O)
  | (n, S _, String c frac) =>
      if Ascii.eqb c "." then
        match digits frac n 0 with
        | (m, S k, EmptyString) => Some (reduce (S k) m)
        | _ => None
        end
      else None
  | _ => None
  end.

Definition parse_decimal (s : string) : (Z * nat) * option NumError :=
  match decimal s with
  | Some x => (x, None)
  | None => ((0, O), Some ErrSyntax)
  end.

(** Timestamps are not read on the examples: every text is refused. *)
Definition parse_no_time (s : string) : Z * bool := (0, true).

#[export] Instance extern : Extern.
Proof.
  refine {| float64 := Z * nat;
            float64_zero := (0, O);
            ParseFloat := parse_decimal;
            Time := Z;
            Time_zero := 0;
            time_Parse_RFC3339 := parse_no_time;
            MemberType := MemberKind;
            MemberType_zero := NODE;
            MemberTypeValues := member_kinds |}.
  - abstract (intros s x; unfold parse_decimal; destruct (decimal s); congruence).
  - abstract (intros s t; unfold parse_no_time; congruence).
Defined.

(** The event of scenario A on this stand-in: the texts 1.0 and 2.0 are
    the numbers 1 and 2. *)
Definition event_A : @parser.DiffElem extern :=
  @parser.mkDiffElem extern false true false
    (Some (@element.mkNode extern
             (@element.mkOSMElem extern 1
                (Some {[ "amenity" := "restaurant" ]}) None)
             (1, O) (2, O)))
    None None.

End sample.

(** ** Reading a token stream and an element by hand *)

Module reading.
Import xml element parser osc events.
Section reading.
Context `{Extern}.

(** A token the loop passes over: text, a start tag with a name the parser
    does not handle (or [osmChange]), an end tag other than those of
    [node], [way], [relation] and [osmChange]. *)
Definition handled_start : list string :=
  ["create"; "modify"; "delete"; "node"; "way"; "relation"; "nd"; "member";
   "tag"].

Definition inert (tok : Token) : bool :=
  match tok with
  | StartElement name _ => negb (existsb (String.eqb (Local name)) handled_start)
  | EndElement name => negb (closes_feature tok || closes_file tok)
  | _ => true
  end.

(** The flags a start tag of a section sets. *)
Definition section_flags (tok : Token) : option (bool * bool * bool) :=
  match tok with
  | StartElement name _ =>
      if String.eqb (Local name) "create" then Some (true, false, false)
      else if String.eqb (Local name) "modify" then Some (false, true, false)
      else if String.eqb (Local name) "delete" then Some (false, false, true)
      else None
  | _ => None
  end.

(** The kind an end tag closes. *)
Definition closing_kind (tok : Token) : option Kind :=
  match tok with
  | EndElement name =>
      if String.eqb (Local name) "node" then Some KNode
      else if String.eqb (Local name) "way" then Some KWay
      else if String.eqb (Local name) "relation" then Some KRelation
      else None
  | _ => None
  end.

(** The closing tags of elements up to the first [</osmChange>], each with
    the flags of the last section start tag before it; [fl] are the flags
    at the start. *)
Fixpoint closed (fl : bool * bool * bool) (toks : list Token)
    : list (Kind * (bool * bool * bool)) :=
  match toks with
  | [] => []
  | tok :: toks' =>
      if closes_file tok then []
      else
        match closing_kind tok with
        | Some k => (k, fl) :: closed fl toks'
        | None => closed (default fl (section_flags tok)) toks'
        end
  end.

(** The tag map of an event, nil or not. *)
Definition event_tags (e : DiffElem) : option (gmap string string) :=
  match DNode e, DWay e, DRel e with
  | Some n, _, _ => Tags (Node_OSMElem n)
  | None, Some w, _ => Tags (Way_OSMElem w)
  | None, None, Some r => Tags (Relation_OSMElem r)
  | None, None, None => None
  end.

(** An element with the children the format gives its kind: [tag]
    anywhere, [nd] in a way, [member] in a relation. *)
Definition fits (k : Kind) (c : ChildKind) : bool :=
  match c, k with
  | CTag, _ | CNd, KWay | CMember, KRelation => true
  | _, _ => false
  end.

Definition conforming (f : Feature) : bool :=
  forallb (fun c => fits (kind f) (child_kind c)) (children f).

Definition is_child (k : ChildKind) (c : Child) : bool :=
  match k, child_kind c with
  | CTag, CTag | CNd, CNd | CMember, CMember => true
  | _, _ => false
  end.

(** The children of one kind, as their attribute lists, in order. *)
Definition children_of (k : ChildKind) (f : Feature) : list (list Attr) :=
  map child_attr (List.filter (is_child k) (children f)).

(** The key and the value of a [tag] child: its last [k] and its last [v]
    attribute, the empty string for a missing one. *)
Definition tag_pair (attr : list Attr) : string * string :=
  (default "" (attr_value "k" attr), default "" (attr_value "v" attr)).

Definition tag_map (pairs : list (string * string)) : gmap string string :=
  foldl (fun t kv => <[kv.1 := kv.2]> t) ∅ pairs.

(** The tags of an element: nil when it has no [tag] child. *)
Definition tags_or_nil (pairs : list (string * string))
    : option (gmap string string) :=
  match pairs with
  | [] => None
  | _ :: _ => Some (tag_map pairs)
  end.

Definition feature_tags (f : Feature) : option (gmap string string) :=
  tags_or_nil (map tag_pair (children_of CTag f)).

(** The value of the last [tag] child with key [k]. *)
Definition last_tag (f : Feature) (k : string) : option string :=
  snd <$> last (List.filter (fun kv => String.eqb kv.1 k)
                  (map tag_pair (children_of CTag f))).

Definition int_attr (name : string) (attr : list Attr) : Z :=
  match attr_value name attr with
  | Some s => fst (strconv.ParseInt s)
  | None => 0
  end.

Definition float_attr (name : string) (attr : list Attr) : float64 :=
  match attr_value name attr with
  | Some s => fst (ParseFloat s)
  | None => float64_zero
  end.

(** The references of a way: every [ref] attribute of every [nd] child. *)
Definition feature_refs (f : Feature) : list Z :=
  flat_map (fun attr =>
              map (fun a => fst (strconv.ParseInt (Value a)))
                (filter (fun a => Local (Attr_Name a) = "ref") attr))
    (children_of CNd f).

(** The members of a relation: the [member] children that are not
    skipped. *)
Definition feature_members (f : Feature) : list Member :=
  omap (member_attrs Member_zero) (children_of CMember f).

(** The provenance of an element, when it is asked for. *)
Definition feature_meta (metadata : bool) (attr : list Attr) : option Metadata :=
  if metadata then
    Some (mkMetadata (int_attr "uid" attr)
            (default "" (attr_value "user" attr))
            (int_attr "version" attr)
            (match attr_value "timestamp" attr with
             | Some s => fst (time_Parse_RFC3339 s)
             | None => Time_zero
             end)
            (int_attr "changeset" attr))
  else None.

(** The event of one element of a section with operation [o]. *)
Definition feature_event (metadata : bool) (o : Op) (f : Feature) : DiffElem :=
  let attr := feature_attr f in
  let e := mkOSMElem (int_attr "id" attr) (feature_tags f)
             (feature_meta metadata attr) in
  let '(a, m, d) := op_flags o in
  match kind f with
  | KNode =>
      mkDiffElem a m d
        (Some (mkNode e (float_attr "lat" attr) (float_attr "lon" attr)))
        None None
  | KWay => mkDiffElem a m d None (Some (mkWay e (feature_refs f))) None
  | KRelation =>
      mkDiffElem a m d None None (Some (mkRelation e (feature_members f)))
  end.

Definition conforming_file (d : File) : bool :=
  forallb (fun s => forallb conforming (features s)) (sections d).

(** The state between the elements of a section with operation [o] in a
    file whose elements conform: nothing is left of the elements before. *)
Definition fresh (o : Op) : State :=
  let '(a, m, d) := op_flags o in
  mkState a m d ∅ false Node_zero Way_zero Relation_zero.

(** The state between two elements when nd and member children may stand
    anywhere: the references and members read since the last way and the
    last relation closed wait in the scratch way and relation. *)
Definition pending (fl : bool * bool * bool) (rs : list Z) (ms : list Member)
    : State :=
  let '(a, m, d) := fl in
  mkState a m d ∅ false Node_zero (mkWay OSMElem_zero rs)
    (mkRelation OSMElem_zero ms).

(** The event of an element that closes with the references [rs] and the
    members [ms] in the scratch way and relation. *)
Definition carried_event (metadata : bool) (o : Op) (f : Feature)
    (rs : list Z) (ms : list Member) : DiffElem :=
  let attr := feature_attr f in
  let e := mkOSMElem (int_attr "id" attr) (feature_tags f)
             (feature_meta metadata attr) in
  let '(a, m, d) := op_flags o in
  match kind f with
  | KNode =>
      mkDiffElem a m d
        (Some (mkNode e (float_attr "lat" attr) (float_attr "lon" attr)))
        None None
  | KWay => mkDiffElem a m d None (Some (mkWay e rs)) None
  | KRelation => mkDiffElem a m d None None (Some (mkRelation e ms))
  end.

(** The events of the elements of a file in order, [rs] and [ms] waiting
    at the start. *)
Fixpoint carried_events (metadata : bool) (rs : list Z) (ms : list Member)
    (l : list (Op * Feature)) : list DiffElem :=
  match l with
  | [] => []
  | (o, f) :: l' =>
      let rs' := rs ++ feature_refs f in
      let ms' := ms ++ feature_members f in
      carried_event metadata o f rs' ms'
      :: carried_events metadata
           (match kind f with KWay => [] | _ => rs' end)
           (match kind f with KRelation => [] | _ => ms' end) l'
  end.

(** The names of the attributes of a tag. *)
Definition attr_names (attr : list Attr) : list string :=
  (fun a => Local (Attr_Name a)) <$> attr.

(** The member a [member] tag gives, from the values of its [type], [ref]
    and [role] attributes when it has at most one of each; [None] when it
    is skipped. *)
Definition member_of (m : Member) (ty rf role : option string) : option Member :=
  match match ty with
        | Some t => MemberTypeValues !! t
        | None => Some (Member_Type m)
        end with
  | None => None
  | Some t =>
      match rf with
      | Some s =>
          match strconv.ParseInt s with
          | (id, None) => Some (mkMember id t (default (Role m) role))
          | (_, Some _) => None
          end
      | None => Some (mkMember (Member_Id m) t (default (Role m) role))
      end
  end.






(** The integers an element carries, and the int64 range. *)
Definition meta_ints (m : option Metadata) : list Z :=
  match m with
  | Some m => [UserId m; Version m; Changeset m]
  | None => []
  end.

Definition elem_ints (e : OSMElem) : list Z := Id e :: meta_ints (Meta e).

Definition node_ints (n : Node) : list Z := elem_ints (Node_OSMElem n).
Definition way_ints (w : Way) : list Z := elem_ints (Way_OSMElem w) ++ Refs w.
Definition rel_ints (r : Relation) : list Z :=
  elem_ints (Relation_OSMElem r) ++ map Member_Id (Members r).

Definition event_ints (e : DiffElem) : list Z :=
  from_option node_ints [] (DNode e) ++ from_option way_ints [] (DWay e)
  ++ from_option rel_ints [] (DRel e).

Definition state_ints (st : State) : list Z :=
  node_ints (node st) ++ way_ints (way st) ++ rel_ints (rel st).

Definition int64 (z : Z) : Prop := - 2 ^ 63 <= z <= 2 ^ 63 - 1.

(** The scratch elements carry no tag map: tags are attached to an element
    only when it is sent. *)
Definition untagged (st : State) : Prop :=
  Tags (Node_OSMElem (node st)) = None /\
  Tags (Way_OSMElem (way st)) = None /\
  Tags (Relation_OSMElem (rel st)) = None.

End reading.
End reading.

(** ** More examples *)

Module sample_more.
Import sample.

(** The first element of [change_file]. *)
Definition cafe : osc.Feature :=
  osc.mkFeature osc.KNode
    (attrs [("id", "1"); ("lat", "1.0"); ("lon", "2.0")])
    [ osc.mkChild osc.CTag (attrs [("k", "amenity"); ("v", "cafe")]) ].

(** A file with an nd child in a node, before a way. *)
Definition stray_file : osc.File :=
  osc.mkFile []
    [ osc.mkSection osc.Create []
        [ osc.mkFeature osc.KNode (attrs [("id", "1")])
            [ osc.mkChild osc.CNd (attrs [("ref", "9")]) ];
          osc.mkFeature osc.KWay (attrs [("id", "2")])
            [ osc.mkChild osc.CNd (attrs [("ref", "1")]) ] ] ].

End sample_more.

(** * Properties of the tag filters *)

Module mapping_spec.
Import mapping.

Section filter.
Variable f : TagFilter.

Lemma found_iff k v : found f k v = true <-> any_rule f k \/ value_rule f k v.
Proof.
  unfold found, any_rule, value_rule.
  destruct (mappings f !! k) as [values|] eqn:Hk.
  - repeat case_bool_decide; split; try done.
    + intros _. left. eauto.
    + intros _. right. eauto.
    + intros [(vs & [= <-] & ?)|(vs & [= <-] & ?)]; done.
  - split; [done|]. intros [(? & ? & _)|(? & ? & _)]; done.
Qed.

Lemma retained_iff k v :
  retained f k v = true <->
  any_rule f k \/ value_rule f k v \/ always_retained f k.
Proof.
  unfold retained, always_retained.
  rewrite orb_true_iff, found_iff, bool_decide_eq_true. tauto.
Qed.

(** The loop body keeps or deletes the visited key and raises the flag. *)
Lemma Filter_body_eq tags b k v :
  Filter_body f (tags, b) (k, v) =
  (if retained f k v then tags else delete k tags, b || found f k v).
Proof.
  unfold Filter_body, retained, found.
  destruct (mappings f !! k) as [values|]; simpl;
    repeat case_bool_decide; simpl;
    rewrite ?orb_true_r, ?orb_false_r; reflexivity.
Qed.

Lemma Filter_range_eq entries tags b :
  Filter_range f entries (tags, b) =
  (foldl (prune f) tags entries,
   b || existsb (fun kv => found f kv.1 kv.2) entries).
Proof.
  unfold Filter_range.
  revert tags b.
  induction entries as [|[k v] entries IH]; intros tags b; cbn [foldl existsb].
  - by rewrite orb_false_r.
  - rewrite Filter_body_eq, IH. by rewrite orb_assoc.
Qed.

Lemma prune_lookup entries : forall tags k,
  foldl (prune f) tags entries !! k =
  if bool_decide (Exists (fun kv => kv.1 = k /\ retained f kv.1 kv.2 = false) entries)
  then None else tags !! k.
Proof.
  induction entries as [|[k' v'] entries IH]; intros tags k; cbn [foldl].
  - rewrite bool_decide_eq_false_2; [done|]. by intros HE%Exists_nil.
  - rewrite IH.
    destruct (decide (Exists (fun kv => kv.1 = k /\ retained f kv.1 kv.2 = false)
                        entries)) as [HE|HE].
    + rewrite !bool_decide_eq_true_2; [done| |done]. by apply Exists_cons_tl.
    + rewrite (bool_decide_eq_false_2 _ HE).
      destruct (decide (k' = k /\ retained f k' v' = false)) as [[-> Hr]|Hn].
      * rewrite bool_decide_eq_true_2 by (by apply Exists_cons_hd).
        unfold prune. simpl. by rewrite Hr, lookup_delete_eq.
      * rewrite bool_decide_eq_false_2 by (rewrite Exists_cons; simpl; tauto).
        unfold prune. simpl. destruct (retained f k' v') eqn:Hr; [done|].
        rewrite lookup_delete_ne; [done|]. intros ->. by apply Hn.
Qed.


(** The tag map after [Filter]: the entries of the old map that are
    retained. *)
Lemma Filter_lookup tags k v :
  fst (Filter f tags) !! k = Some v <->
  tags !! k = Some v /\ retained f k v = true.
Proof.
  unfold Filter. rewrite Filter_range_eq. cbn [fst]. rewrite prune_lookup.
  case_bool_decide as HE.
  - apply Exists_exists in HE as ([k' v'] & Hin & <- & Hr). simpl in *.
    apply elem_of_map_to_list in Hin. split; [done|].
    intros [Hk Hv]. congruence.
  - split; [|tauto]. intros Hk. split; [done|].
    destruct (retained f k v) eqn:Hr; [done|].
    exfalso. apply HE, Exists_exists. exists (k, v).
    by rewrite elem_of_map_to_list.
Qed.

(** The boolean [Filter] returns. *)
Lemma Filter_verdict tags :
  snd (Filter f tags) = true <->
  exists k v, tags !! k = Some v /\ found f k v = true.
Proof.
  unfold Filter. rewrite Filter_range_eq. cbn [snd orb].
  rewrite existsb_exists. split.
  - intros ([k v] & Hin%list_elem_of_In%elem_of_map_to_list & Hf). eauto.
  - intros (k & v & Hk & Hf). exists (k, v).
    by rewrite <- list_elem_of_In, elem_of_map_to_list.
Qed.

(** Go leaves the order of [range] over a map open; the result of the loop
    is the same for every order. *)
Lemma Filter_any_order tags entries :
  entries ≡ₚ map_to_list tags ->
  Filter_range f entries (tags, false) = Filter f tags.
Proof.
  intros Hp. unfold Filter. rewrite !Filter_range_eq. f_equal.
  - apply map_eq. intros k. rewrite !prune_lookup.
    erewrite bool_decide_ext; [done|].
    rewrite !Exists_exists. by setoid_rewrite Hp.
  - cbn [orb]. apply eq_true_iff_eq. rewrite !existsb_exists.
    by setoid_rewrite <- list_elem_of_In; setoid_rewrite Hp.
Qed.

Lemma Filter_twice tags : Filter f (fst (Filter f tags)) = Filter f tags.
Proof.
  apply injective_projections.
  - apply map_eq. intros k. apply option_eq. intros v.
    rewrite !Filter_lookup. tauto.
  - apply eq_true_iff_eq. rewrite !Filter_verdict.
    setoid_rewrite Filter_lookup. split.
    + intros (k & v & [Hk _] & Hf). eauto.
    + intros (k & v & Hk & Hf). exists k, v. repeat split; [done| |done].
      unfold retained. by rewrite Hf.
Qed.

End filter.

(** The relation filter runs the wrapped filter exactly when the type is
    one of the accepted ones. *)
Lemma RelationFilter_eq f tags :
  RelationFilter f tags =
  match tags !! "type" with
  | Some t =>
      if bool_decide (t ∈ accepted_types)
      then (fst (Filter (TagFilter_of f) tags), true) else (tags, false)
  | None => (tags, false)
  end.
Proof.
  unfold RelationFilter, accepted_types.
  destruct (tags !! "type") as [t|]; [|done].
  repeat case_bool_decide; simpl; try done; exfalso;
    repeat match goal with
    | H : _ ∈ _ :: _ |- _ => apply elem_of_cons in H as [?|H]
    | H : _ ∈ [] |- _ => by apply elem_of_nil in H
    | H : ¬ (_ ∈ _) |- _ => apply H; clear H
    end; subst; try done; set_solver.
Qed.

(** [Filter] never strips an always-retained key. *)
Lemma Filter_keeps_always_retained f tags k v :
  always_retained f k -> tags !! k = Some v ->
  fst (Filter f tags) !! k = Some v.
Proof.
  intros Hextra Hk. apply Filter_lookup. split; [done|].
  apply retained_iff. by right; right.
Qed.

(** A relation filter built by [Mapping.RelationTagFilter] never strips
    the type tag. *)
Lemma NewRelationTagFilter_keeps_type m tags t :
  tags !! "type" = Some t ->
  fst (Filter (TagFilter_of (NewRelationTagFilter m)) tags) !! "type" = Some t.
Proof.
  intros Ht. apply Filter_lookup. split; [done|].
  apply retained_iff. right. right.
  unfold always_retained, NewRelationTagFilter. cbn.
  rewrite lookup_insert_eq. eauto.
Qed.

(** C1: [TagFilter.Filter] keeps exactly the entries whose key has a rule
    with the wildcard or with the tag's value, or is always retained, each
    with its value, and deletes the rest; it returns true exactly when some
    entry matched a rule; a rule with the wildcard makes every tag set with
    that key relevant and keeps the key. *)
Theorem C1_Filter_retains_and_reports (f : TagFilter) (tags : gmap string string) :
  (forall k v,
     fst (Filter f tags) !! k = Some v <->
     tags !! k = Some v /\
     (any_rule f k \/ value_rule f k v \/ always_retained f k)) /\
  (snd (Filter f tags) = true <->
   exists k v, tags !! k = Some v /\ (any_rule f k \/ value_rule f k v)) /\
  (forall k v l,
     mappings f !! k = Some {[ "__any__" := l ]} -> tags !! k = Some v ->
     snd (Filter f tags) = true /\ fst (Filter f tags) !! k = Some v).
Proof.
  split; [|split].
  - intros k v. by rewrite Filter_lookup, retained_iff.
  - rewrite Filter_verdict. by setoid_rewrite found_iff.
  - intros k v l Hk Hv.
    assert (any_rule f k) as Hany.
    { exists {[ "__any__" := l ]}. split; [done|].
      rewrite lookup_singleton_eq. eauto. }
    split.
    + apply Filter_verdict. exists k, v. split; [done|].
      apply found_iff. by left.
    + apply Filter_lookup. split; [done|]. apply retained_iff. by left.
Qed.

Lemma C1_witness :
  snd (Filter (mkTagFilter {[ "amenity" := {[ "__any__" := [] ]} ]} ∅)
         {[ "amenity" := "restaurant"; "source" := "survey" ]}) = true /\
  fst (Filter (mkTagFilter {[ "amenity" := {[ "__any__" := [] ]} ]} ∅)
         {[ "amenity" := "restaurant"; "source" := "survey" ]}) !! "amenity"
  = Some "restaurant".
Proof.
  apply (proj2 (proj2 (C1_Filter_retains_and_reports
          (mkTagFilter {[ "amenity" := {[ "__any__" := [] ]} ]} ∅)
          {[ "amenity" := "restaurant"; "source" := "survey" ]}))
         "amenity" "restaurant" []).
  - vm_compute. reflexivity.
  - vm_compute. reflexivity.
Defined.

(** Scenario C of the specification, both tag sets. *)
Example Filter_scenario_C :
  let f := mkTagFilter {[ "shop" := {[ "bakery" := [] ]} ]} {[ "name" := true ]} in
  Filter f {[ "shop" := "bakery"; "name" := "Joe's"; "foo" := "bar" ]}
  = ({[ "shop" := "bakery"; "name" := "Joe's" ]}, true) /\
  Filter f {[ "name" := "Joe's"; "foo" := "bar" ]}
  = ({[ "name" := "Joe's" ]}, false).
Proof. split; vm_compute; reflexivity. Qed.

(** C2: [RelationTagFilter.Filter] returns false and leaves the tags as
    they are when the type tag is missing or not one of multipolygon,
    boundary, land_area; otherwise it runs the wrapped filter on the tags
    and returns true whatever that filter found. *)
Theorem C2_RelationFilter_type_gate (f : RelationTagFilter)
    (tags : gmap string string) :
  (tags !! "type" = None \/
   (exists t, tags !! "type" = Some t /\ t ∉ accepted_types) ->
   RelationFilter f tags = (tags, false)) /\
  (forall t, tags !! "type" = Some t -> t ∈ accepted_types ->
   RelationFilter f tags = (fst (Filter (TagFilter_of f) tags), true)).
Proof.
  rewrite RelationFilter_eq. split.
  - intros [->|(t & -> & Ht)]; [done|]. by rewrite bool_decide_eq_false_2.
  - intros t -> Ht. by rewrite bool_decide_eq_true_2.
Qed.

Lemma C2_witness :
  RelationFilter (mkRelationTagFilter (mkTagFilter ∅ {[ "type" := true ]}))
    {[ "type" := "route"; "name" := "7" ]}
  = ({[ "type" := "route"; "name" := "7" ]}, false) /\
  RelationFilter (mkRelationTagFilter (mkTagFilter ∅ {[ "type" := true ]}))
    {[ "type" := "boundary"; "name" := "7" ]}
  = (fst (Filter (mkTagFilter ∅ {[ "type" := true ]})
            {[ "type" := "boundary"; "name" := "7" ]}), true).
Proof.
  split.
  - apply (proj1 (C2_RelationFilter_type_gate
             (mkRelationTagFilter (mkTagFilter ∅ {[ "type" := true ]}))
             {[ "type" := "route"; "name" := "7" ]})).
    right. exists "route". split; [vm_compute; reflexivity|].
    unfold accepted_types. rewrite !elem_of_cons, elem_of_nil.
    intros [?|[?|[?|?]]]; done.
  - apply (proj2 (C2_RelationFilter_type_gate
             (mkRelationTagFilter (mkTagFilter ∅ {[ "type" := true ]}))
             {[ "type" := "boundary"; "name" := "7" ]}) "boundary").
    + vm_compute. reflexivity.
    + unfold accepted_types. rewrite !elem_of_cons. right. by left.
Defined.

(** C7 (amended): a second [Filter] on the tags the first one left changes
    nothing and returns the same boolean; for [TagFilter.Filter] with every
    rule table, every set of always-retained keys and every tag set, and for
    [RelationTagFilter.Filter] with every rule table and every tag set
    whenever the type key is among the always-retained keys, which holds
    for every filter that [Mapping.RelationTagFilter] builds (line 28). *)
Theorem C7_Filter_idempotent_when_type_is_kept :
  (forall (f : TagFilter) (tags : gmap string string),
     Filter f (fst (Filter f tags))
     = (fst (Filter f tags), snd (Filter f tags))) /\
  (forall (f : RelationTagFilter) (tags : gmap string string),
     always_retained (TagFilter_of f) "type" ->
     RelationFilter f (fst (RelationFilter f tags))
     = (fst (RelationFilter f tags), snd (RelationFilter f tags))) /\
  (forall m : Mapping,
     always_retained (TagFilter_of (NewRelationTagFilter m)) "type").
Proof.
  split; [|split].
  - intros f tags. rewrite Filter_twice. by destruct (Filter f tags).
  - intros f tags Hextra. rewrite (RelationFilter_eq _ tags).
    destruct (tags !! "type") as [t|] eqn:Ht; cbn [fst snd].
    + case_bool_decide as Hacc; cbn [fst snd].
      * rewrite RelationFilter_eq.
        rewrite (Filter_keeps_always_retained (TagFilter_of f) tags "type" t Hextra Ht).
        rewrite bool_decide_eq_true_2 by done. by rewrite Filter_twice.
      * rewrite RelationFilter_eq, Ht. by rewrite bool_decide_eq_false_2.
    + by rewrite RelationFilter_eq, Ht.
  - intros m. unfold always_retained, NewRelationTagFilter. cbn.
    rewrite lookup_insert_eq. eauto.
Qed.

Lemma C7_witness :
  RelationFilter (mkRelationTagFilter (mkTagFilter ∅ {[ "type" := true ]}))
    (fst (RelationFilter (mkRelationTagFilter (mkTagFilter ∅ {[ "type" := true ]}))
            {[ "type" := "boundary"; "name" := "7" ]}))
  = (fst (RelationFilter (mkRelationTagFilter (mkTagFilter ∅ {[ "type" := true ]}))
            {[ "type" := "boundary"; "name" := "7" ]}),
     snd (RelationFilter (mkRelationTagFilter (mkTagFilter ∅ {[ "type" := true ]}))
            {[ "type" := "boundary"; "name" := "7" ]})).
Proof.
  apply (proj1 (proj2 C7_Filter_idempotent_when_type_is_kept)
           (mkRelationTagFilter (mkTagFilter ∅ {[ "type" := true ]}))
           {[ "type" := "boundary"; "name" := "7" ]}).
  exists true. vm_compute. reflexivity.
Defined.

(** Without the type key among the always-retained keys the relation filter
    is not idempotent: the [RelationTagFilter] with no rule and no extra tag
    (the zero value of the struct) strips the type tag of a boundary
    relation and answers true, and on the tags it left it answers false. *)
Lemma C7_counterexample :
  ~ always_retained (TagFilter_of (mkRelationTagFilter (mkTagFilter ∅ ∅))) "type" /\
  RelationFilter (mkRelationTagFilter (mkTagFilter ∅ ∅)) {[ "type" := "boundary" ]}
  = (∅, true) /\
  RelationFilter (mkRelationTagFilter (mkTagFilter ∅ ∅))
    (fst (RelationFilter (mkRelationTagFilter (mkTagFilter ∅ ∅))
            {[ "type" := "boundary" ]}))
  = (∅, false) /\
  RelationFilter (mkRelationTagFilter (mkTagFilter ∅ ∅))
    (fst (RelationFilter (mkRelationTagFilter (mkTagFilter ∅ ∅))
            {[ "type" := "boundary" ]}))
  <> (fst (RelationFilter (mkRelationTagFilter (mkTagFilter ∅ ∅))
             {[ "type" := "boundary" ]}),
      snd (RelationFilter (mkRelationTagFilter (mkTagFilter ∅ ∅))
             {[ "type" := "boundary" ]})).
Proof.
  split; [|split; [|split]].
  - intros [b Hb]. vm_compute in Hb. discriminate Hb.
  - vm_compute. reflexivity.
  - vm_compute. reflexivity.
  - intros Heq. vm_compute in Heq. discriminate Heq.
Qed.

End mapping_spec.

(** * Properties of the change parser *)

Module parser_spec.
Import xml element parser osc events.

Section parse.
Context `{Extern}.

(** ** One round *)

(** Split [startElement] by the name of the tag. *)
Ltac start_cases :=
  unfold startElement; cbn zeta;
  repeat match goal with
  | |- context [String.eqb ?a ?b] => destruct (String.eqb a b) eqn:?
  end;
  try match goal with
  | |- context [member_attrs ?m ?a] => destruct (member_attrs m a)
  end;
  try match goal with
  | |- context [foldl tag_attr ?x ?a] => destruct (foldl tag_attr x a)
  end.

Lemma startElement_newElem md st name attr :
  newElem (startElement md st name attr) = newElem st.
Proof. start_cases; reflexivity. Qed.

Lemma startElement_same_flags md st name attr :
  opens_section (StartElement name attr) = false ->
  state_flags (startElement md st name attr) = state_flags st.
Proof.
  cbn [opens_section]. intros [[H1 H2]%orb_false_iff H3]%orb_false_iff.
  start_cases; try reflexivity; congruence.
Qed.

Lemma closes_feature_end name :
  closes_feature (EndElement name) = true ->
  closes_file (EndElement name) = false.
Proof.
  simpl. destruct (String.eqb_spec (Local name) "osmChange") as [->|]; done.
Qed.

(** [</node>], [</way>] and [</relation>] send one event with one payload
    and the flags of the state, and leave a fresh scratch element. *)
Lemma endElement_feature st name :
  newElem st = false ->
  closes_feature (EndElement name) = true ->
  exists st' e,
    endElement st name = Next st' (Some e) /\
    newElem st' = false /\ state_flags st' = state_flags st /\
    event_flags e = state_flags st /\ payloads e = 1%nat.
Proof.
  intros Hn Hc. simpl in Hc. unfold endElement, emit.
  destruct (String.eqb (Local name) "node"); [|
  destruct (String.eqb (Local name) "way"); [|
  destruct (String.eqb (Local name) "relation"); [|done]]];
    cbn; case_bool_decide; eauto 10.
Qed.

Lemma endElement_other st name :
  newElem st = false ->
  closes_feature (EndElement name) = false ->
  closes_file (EndElement name) = false ->
  endElement st name = Next st None.
Proof.
  intros Hn Hc Hf. simpl in Hc, Hf. unfold endElement, emit.
  apply orb_false_iff in Hc as [[Hc1 Hc2]%orb_false_iff Hc3].
  by rewrite Hc1, Hc2, Hc3, Hf, Hn.
Qed.

Lemma endElement_file st name :
  closes_file (EndElement name) = true -> endElement st name = Return.
Proof.
  intros Hf. simpl in Hf. unfold endElement.
  apply String.eqb_eq in Hf. by rewrite Hf.
Qed.

(** What one round does, by the kind of token. *)
Lemma round_cases md st tok :
  newElem st = false ->
  (closes_file tok = true /\ round md st tok = Return) \/
  (closes_file tok = false /\ closes_feature tok = true /\
   exists st' e, round md st tok = Next st' (Some e) /\
     newElem st' = false /\ state_flags st' = state_flags st /\
     event_flags e = state_flags st /\ payloads e = 1%nat) \/
  (closes_file tok = false /\ closes_feature tok = false /\
   exists st', round md st tok = Next st' None /\ newElem st' = false /\
     (opens_section tok = false -> state_flags st' = state_flags st) /\
     (is_tag tok = false -> st' = st)).
Proof.
  intros Hn. destruct tok as [name attr|name| | | |];
    [| |right; right; repeat split; exists st; repeat split; done..].
  - right; right. split; [done|]. split; [done|].
    exists (startElement md st name attr). split; [done|].
    rewrite startElement_newElem.
    split; [done|]. split; [|done].
    apply startElement_same_flags.
  - destruct (closes_file (EndElement name)) eqn:Hf.
    + left. split; [done|]. by apply endElement_file.
    + right. destruct (closes_feature (EndElement name)) eqn:Hc.
      * left. repeat split; [done..|]. by apply endElement_feature.
      * right. repeat split; [done..|]. exists st.
        split; [by apply endElement_other|done].
Qed.

(** ** The loop *)

Lemma loop_run md st toks err :
  loop md st toks err =
  map SendElem (fst (run md st toks)) ++
  match snd (run md st toks) with Some _ => [SendErr err] | None => [] end.
Proof.
  revert st. induction toks as [|tok toks IH]; intros st; simpl; [done|].
  destruct (round md st tok) as [st' [e|]|]; [| |done];
    rewrite IH; by destruct (run md st' toks).
Qed.

Lemma run_app md st toks1 toks2 :
  run md st (toks1 ++ toks2) =
  match run md st toks1 with
  | (evs, Some st') =>
      (evs ++ fst (run md st' toks2), snd (run md st' toks2))
  | (evs, None) => (evs, None)
  end.
Proof.
  revert st. induction toks1 as [|tok toks1 IH]; intros st; simpl.
  - by destruct (run md st toks2).
  - destruct (round md st tok) as [st' sent|]; [|done].
    rewrite IH. destruct (run md st' toks1) as [evs [st''|]]; [|done].
    by rewrite app_assoc.
Qed.

Lemma startElement_flags md st name attr :
  (count_true (state_flags st) <= 1)%nat ->
  (count_true (state_flags (startElement md st name attr)) <= 1)%nat.
Proof.
  intros Hst. start_cases; try exact Hst; cbn; lia.
Qed.

Lemma round_flags md st tok st' sent :
  newElem st = false ->
  (count_true (state_flags st) <= 1)%nat ->
  round md st tok = Next st' sent ->
  (count_true (state_flags st') <= 1)%nat.
Proof.
  intros Hn Hst Hr.
  destruct tok as [name attr|name| | | |]; simpl in Hr;
    try (injection Hr as <- _; done).
  - injection Hr as <- _. by apply startElement_flags.
  - destruct (round_cases md st (EndElement name) Hn)
      as [[_ Hq]|[(_ & _ & st1 & e & Hq & _ & Hfl & _)|(_ & _ & st1 & Hq & _ & Hfl & _)]];
      simpl in Hq; rewrite Hq in Hr; [done| |].
    + injection Hr as <- _. by rewrite Hfl.
    + injection Hr as <- _. by rewrite Hfl.
Qed.

(** The events of a run: one for each closing [node], [way] or [relation]
    tag up to [</osmChange>], each with one payload and at most one flag;
    the loop returns exactly at [</osmChange>]. *)
Lemma run_events md toks : forall st,
  newElem st = false ->
  (count_true (state_flags st) <= 1)%nat ->
  length (fst (run md st toks))
    = length (filter (fun t => closes_feature t = true) (before_close toks)) /\
  (snd (run md st toks) = None <-> existsb closes_file toks = true) /\
  Forall (fun e => payloads e = 1%nat /\ (flags e <= 1)%nat)
    (fst (run md st toks)).
Proof.
  induction toks as [|tok toks IH]; intros st Hn Hst.
  - simpl. repeat split; [done..|constructor].
  - cbn [run before_close existsb].
    destruct (round_cases md st tok Hn)
      as [[Hf Hq]|[(Hf & Hc & st' & e & Hq & Hn' & Hfl & He & Hp)
                  |(Hf & Hc & st' & Hq & Hn' & _)]];
      rewrite Hq, Hf.
    + simpl. repeat split; [done..|constructor].
    + assert (count_true (state_flags st') <= 1)%nat as Hst' by by rewrite Hfl.
      destruct (IH st' Hn' Hst') as (Hlen & Hret & Hall).
      destruct (run md st' toks) as [evs r]. cbn [fst snd orb] in *.
      rewrite filter_cons_True by done.
      change (option_list (Some e) ++ evs) with (e :: evs).
      cbn [length]. rewrite Hlen.
      split; [done|]. split; [done|]. constructor; [|done].
      split; [done|]. unfold flags. change (Add e, Mod e, Del e) with (event_flags e).
      by rewrite He.
    + assert (count_true (state_flags st') <= 1)%nat as Hst'
        by (exact (round_flags md st tok st' None Hn Hst Hq)).
      destruct (IH st' Hn' Hst') as (Hlen & Hret & Hall).
      destruct (run md st' toks) as [evs r]. cbn [fst snd orb] in *.
      rewrite filter_cons_False by (by rewrite Hc). done.
Qed.

Lemma before_close_all toks :
  existsb closes_file toks = false -> before_close toks = toks.
Proof.
  induction toks as [|tok toks IH]; simpl; [done|].
  intros [-> Hr]%orb_false_iff. by rewrite IH.
Qed.

Lemma init_ready :
  newElem init = false /\ (count_true (state_flags init) <= 1)%nat.
Proof. split; [done|]. cbn. lia. Qed.

Lemma elems_loop md st toks err tail :
  Forall (fun a => is_close a = true) tail ->
  elems (loop md st toks err ++ tail) = fst (run md st toks).
Proof.
  intros Htail. rewrite loop_run. unfold elems. rewrite !omap_app.
  assert (omap sent tail = []) as ->.
  { induction Htail as [|a tail Ha _ IH]; [done|].
    destruct a; try done; exact IH. }
  assert (forall r : option State,
    omap sent (match r with Some _ => [SendErr err] | None => [] end) = [])
    as -> by (by intros [|]).
  rewrite !app_nil_r. induction (fst (run md st toks)) as [|e evs IH]; [done|].
  cbn. by rewrite IH.
Qed.

Lemma elems_parse md toks err :
  elems (parse (Tokens toks err) md) = fst (run md init toks).
Proof. apply elems_loop. by repeat constructor. Qed.

(** Tokens that open no section and do not close the file leave the flags
    as they are. *)
Lemma run_same_flags md pre : forall st,
  newElem st = false ->
  Forall (fun t => opens_section t = false /\ closes_file t = false) pre ->
  exists st', snd (run md st pre) = Some st' /\
    newElem st' = false /\ state_flags st' = state_flags st.
Proof.
  induction pre as [|tok pre IH]; intros st Hn Hpre; [by exists st|].
  apply Forall_cons in Hpre as [[Hop Hcf] Hpre]. cbn [run].
  destruct (round_cases md st tok Hn)
    as [[Hf _]|[(_ & _ & st' & e & Hq & Hn' & Hfl & _)
               |(_ & _ & st' & Hq & Hn' & Hfl & _)]]; [congruence| |];
    rewrite Hq; destruct (IH st' Hn' Hpre) as (st'' & Hr & Hn'' & Hfl'');
    destruct (run md st' pre) as [evs r]; cbn [snd] in *;
    exists st''; rewrite Hfl''; auto.
Qed.

(** C4: a failure to open the file, to start the decompression or to read
    a token sends that one error and then closes both channels; after a
    token failure the events sent are those of the elements closed before
    it, none for an element still open; a parse ends in clean closure or in
    one error after the events of a prefix of the input. *)
Theorem C4_fatal_errors_end_the_parse (md : bool) :
  (forall err, parse (OpenError err) md = [SendErr err; CloseErrc; CloseElems]) /\
  (forall err,
     parse (GzipError err) md = [SendErr err; CloseFile; CloseErrc; CloseElems]) /\
  (forall toks err, existsb closes_file toks = false ->
     exists evs,
       parse (Tokens toks err) md
       = map SendElem evs ++ [SendErr err; CloseFile; CloseErrc; CloseElems] /\
       length evs = length (filter (fun t => closes_feature t = true) toks)) /\
  (forall toks err, existsb closes_file toks = true ->
     exists evs,
       parse (Tokens toks err) md
       = map SendElem evs ++ [CloseFile; CloseErrc; CloseElems]) /\
  (forall toks more err err',
     elems (parse (Tokens toks err) md)
     `prefix_of` elems (parse (Tokens (toks ++ more) err') md)).
Proof.
  destruct init_ready as [Hn Hfl].
  split; [done|]. split; [done|]. split; [|split].
  - intros toks err Hno.
    destruct (run_events md toks init Hn Hfl) as (Hlen & Hret & _).
    exists (fst (run md init toks)). rewrite before_close_all in Hlen by done.
    split; [|done]. cbn [parse]. rewrite loop_run.
    destruct (snd (run md init toks)) as [st|].
    + by rewrite <- app_assoc.
    + destruct Hret as [Hret _]. rewrite Hret in Hno; done.
  - intros toks err Hyes.
    destruct (run_events md toks init Hn Hfl) as (_ & Hret & _).
    exists (fst (run md init toks)). cbn [parse]. rewrite loop_run.
    destruct Hret as [_ Hret]. rewrite (Hret Hyes). by rewrite app_nil_r.
  - intros toks more err err'. rewrite !elems_parse, run_app.
    destruct (run md init toks) as [evs [st|]]; cbn [fst].
    + by apply prefix_app_r.
    + done.
Qed.

(** C9: no event has more than one flag set; an element that closes before
    any [create], [modify] or [delete] tag was read is sent all the same,
    with none of the three flags set. *)
Theorem C9_at_most_one_flag (md : bool) :
  (forall input e, e ∈ elems (parse input md) -> (flags e <= 1)%nat) /\
  (forall pre name post err,
     Forall (fun t => opens_section t = false /\ closes_file t = false) pre ->
     closes_feature (EndElement name) = true ->
     exists evs e rest,
       parse (Tokens (pre ++ EndElement name :: post) err) md
       = map SendElem evs ++ SendElem e :: rest /\
       length evs = length (filter (fun t => closes_feature t = true) pre) /\
       Add e = false /\ Mod e = false /\ Del e = false).
Proof.
  destruct init_ready as [Hn Hfl]. split.
  - intros [err|err|toks err] e; [by intros ?%elem_of_nil..|].
    rewrite elems_parse. intros He.
    destruct (run_events md toks init Hn Hfl) as (_ & _ & Hall).
    rewrite Forall_forall in Hall. by apply Hall.
  - intros pre name post err Hpre Hname.
    destruct (run_same_flags md pre init Hn Hpre) as (st & Hr & Hn' & Hfl').
    assert (existsb closes_file pre = false) as Hno.
    { clear -Hpre. induction Hpre as [|t pre [_ Ht] _ IH]; [done|].
      simpl. by rewrite Ht, IH. }
    destruct (run_events md pre init Hn Hfl) as (Hlen & _).
    rewrite before_close_all in Hlen by done.
    destruct (endElement_feature st name Hn' Hname)
      as (st' & e & Hq & _ & _ & He & _).
    exists (fst (run md init pre)), e.
    exists (map SendElem (fst (run md st' post)) ++
            match snd (run md st' post) with
            | Some _ => [SendErr err] | None => [] end ++ closing).
    split; [|split; [done|]].
    + cbn [parse]. rewrite loop_run, run_app.
      destruct (run md init pre) as [evs r]. cbn [fst snd] in *. subst r.
      cbn [run round]. rewrite Hq.
      destruct (run md st' post) as [evs' r']. cbn [fst snd option_list].
      rewrite map_app. cbn [map app]. by rewrite <- !app_assoc.
    + unfold event_flags in He. rewrite Hfl' in He. by injection He.
Qed.

(** ** Relation members *)



Lemma attr_value_cons name a attr :
  attr_value name (a :: attr) =
  match attr_value name attr with
  | Some v => Some v
  | None => if attr_is a name then Some (Value a) else None
  end.
Proof.
  unfold attr_value, attr_is.
  destruct (String.eqb_spec (Local (Attr_Name a)) name) as [Heq|Hne].
  - rewrite filter_cons_True by done. rewrite last_cons.
    by destruct (last (filter _ attr)).
  - rewrite filter_cons_False by done. by destruct (last (filter _ attr)).
Qed.








(** ** A whole change file *)

Lemma round_text md st tok :
  is_tag tok = false -> round md st tok = Next st None.
Proof. by destruct tok. Qed.

Lemma run_tags md toks : forall st,
  run md st toks = run md st (filter (fun t => is_tag t = true) toks).
Proof.
  induction toks as [|tok toks IH]; intros st; [done|].
  destruct (is_tag tok) eqn:Ht.
  - rewrite filter_cons_True by done. cbn [run].
    destruct (round md st tok) as [st' sent|]; [|done]. by rewrite IH.
  - rewrite filter_cons_False by (by rewrite Ht). cbn [run].
    rewrite round_text by done. rewrite IH.
    by destruct (run md st (filter _ toks)).
Qed.

Lemma Id_attach_tags t e : Id (attach_tags t e) = Id e.
Proof. unfold attach_tags. by case_bool_decide. Qed.

Lemma Id_setElemMetadata attr e : Id (setElemMetadata attr e) = Id e.
Proof. done. Qed.

Lemma Id_id_attr attr : forall e,
  Id (foldl id_attr e attr) =
  match attr_value "id" attr with
  | Some s => fst (strconv.ParseInt s) | None => Id e end.
Proof.
  induction attr as [|a attr IH]; intros e; [done|].
  cbn [foldl]. rewrite IH, attr_value_cons.
  destruct (attr_value "id" attr); [done|].
  unfold id_attr. by destruct (attr_is a "id").
Qed.

Lemma Id_node_attr attr : forall n,
  Id (Node_OSMElem (foldl node_attr n attr)) =
  match attr_value "id" attr with
  | Some s => fst (strconv.ParseInt s) | None => Id (Node_OSMElem n) end.
Proof.
  induction attr as [|a attr IH]; intros n; [done|].
  cbn [foldl]. rewrite IH, attr_value_cons.
  destruct (attr_value "id" attr); [done|].
  unfold node_attr. destruct (attr_is a "id"); [done|].
  by destruct (attr_is a "lat"), (attr_is a "lon").
Qed.

Lemma run_child md c st :
  newElem st = false ->
  exists st', run md st (child_tokens c) = ([], Some st') /\
    newElem st' = false /\ state_flags st' = state_flags st /\
    state_ids st' = state_ids st.
Proof.
  intros Hn. destruct c as [[| |] attr]; unfold child_tokens, element;
    cbn [child_kind child_attr child_name app run round].
  - set (st1 := startElement md st _ attr).
    assert (newElem st1 = false /\ state_flags st1 = state_flags st /\
            state_ids st1 = state_ids st) as (Hn1 & Hf1 & Hi1).
    { subst st1. unfold startElement. cbn.
      by destruct (foldl tag_attr _ attr). }
    rewrite endElement_other by done. eauto.
  - set (st1 := startElement md st _ attr).
    assert (newElem st1 = false /\ state_flags st1 = state_flags st /\
            state_ids st1 = state_ids st) as (Hn1 & Hf1 & Hi1).
    { subst st1. unfold startElement. cbn. repeat split; [done|].
      unfold state_ids. cbn. f_equal. f_equal.
      induction attr as [|a attr IH] using rev_ind; [done|].
      rewrite foldl_snoc. unfold nd_attr at 1. by destruct (attr_is a "ref"). }
    rewrite endElement_other by done. eauto.
  - set (st1 := startElement md st _ attr).
    assert (newElem st1 = false /\ state_flags st1 = state_flags st /\
            state_ids st1 = state_ids st) as (Hn1 & Hf1 & Hi1).
    { subst st1. unfold startElement. cbn.
      by destruct (member_attrs _ attr). }
    rewrite endElement_other by done. eauto.
Qed.

Lemma run_children md cs : forall st,
  newElem st = false ->
  exists st', run md st (concat (map child_tokens cs)) = ([], Some st') /\
    newElem st' = false /\ state_flags st' = state_flags st /\
    state_ids st' = state_ids st.
Proof.
  induction cs as [|c cs IH]; intros st Hn; [by exists st|].
  cbn [map concat]. rewrite run_app.
  destruct (run_child md c st Hn) as (st1 & -> & Hn1 & Hf1 & Hi1).
  destruct (IH st1 Hn1) as (st2 & -> & Hn2 & Hf2 & Hi2).
  exists st2. cbn. repeat split; congruence.
Qed.

Lemma endElement_kind st k :
  newElem st = false ->
  exists e st',
    endElement st (mkName "" (kind_name k)) = Next st' (Some e) /\
    newElem st' = false /\ state_flags st' = state_flags st /\
    event_flags e = state_flags st /\ event_kind e = Some k /\
    event_id e =
      Some (match k with
            | KNode => Id (Node_OSMElem (node st))
            | KWay => Id (Way_OSMElem (way st))
            | KRelation => Id (Relation_OSMElem (rel st))
            end) /\
    state_ids st' =
      match k, state_ids st with
      | KNode, (_, w, r) => (0, w, r)
      | KWay, (n, _, r) => (n, 0, r)
      | KRelation, (n, w, _) => (n, w, 0)
      end.
Proof.
  intros Hn. unfold endElement, emit, event_id, event_kind.
  destruct k; cbn; case_bool_decide; eexists _, _;
    (split; [reflexivity|]); cbn; by rewrite ?Id_attach_tags.
Qed.

Lemma event_op_flags e o : event_flags e = op_flags o -> event_op e = Some o.
Proof.
  unfold event_flags, event_op. by destruct o; intros [= -> -> ->].
Qed.

(** One element of a section: one event, of its kind, with the operation
    of the section and the identifier of its start tag. *)
Lemma run_feature md o f st :
  between o st ->
  exists e st',
    run md st (feature_tokens f) = ([e], Some st') /\
    between o st' /\ summary e = expected (o, f).
Proof.
  intros (Hn & Hfl & Hid). unfold feature_tokens, element.
  cbn [run round].
  remember (startElement md st (mkName "" (kind_name (kind f))) (feature_attr f))
    as st1 eqn:Hst1.
  assert (newElem st1 = false) as Hn1
    by (subst st1; by rewrite startElement_newElem).
  assert (state_flags st1 = op_flags o) as Hfl1.
  { rewrite <- Hfl. subst st1. apply startElement_same_flags.
    by destruct (kind f). }
  assert (state_ids st1 =
          match kind f with
          | KNode => (feature_id f, 0, 0)
          | KWay => (0, feature_id f, 0)
          | KRelation => (0, 0, feature_id f)
          end) as Hid1.
  { unfold state_ids in *. injection Hid as Hi1 Hi2 Hi3.
    subst st1. unfold feature_id.
    destruct (kind f); unfold startElement; cbn [kind_name Local String.eqb
      Ascii.eqb Bool.eqb set_node set_way set_rel node way rel
      Node_OSMElem Way_OSMElem Relation_OSMElem];
      rewrite ?Hi1, ?Hi2, ?Hi3; f_equal; [f_equal|..];
      destruct md; cbn [Node_OSMElem Way_OSMElem Relation_OSMElem];
      rewrite ?Id_setElemMetadata, ?Id_node_attr, ?Id_id_attr,
        ?Hi1, ?Hi2, ?Hi3; reflexivity. }
  clear Hst1. rewrite run_app.
  destruct (run_children md (children f) st1 Hn1)
    as (st2 & -> & Hn2 & Hfl2 & Hid2).
  rewrite Hfl1 in Hfl2. rewrite Hid1 in Hid2.
  destruct (endElement_kind st2 (kind f) Hn2)
    as (e & st3 & Hq & Hn3 & Hfl3 & He & Hk & Hi & Hid3).
  exists e, st3. cbn [run round fst snd app]. rewrite Hq. cbn.
  split; [done|]. split.
  - split; [done|]. split; [congruence|]. rewrite Hid3, Hid2.
    by destruct (kind f).
  - unfold summary, expected. cbn [fst snd].
    rewrite Hk, Hi, (event_op_flags e o) by congruence.
    unfold state_ids in Hid2. do 2 f_equal.
    destruct (kind f); injection Hid2 as Hi1 Hi2 Hi3; congruence.
Qed.

Lemma run_features md o fs : forall st,
  between o st ->
  exists evs st',
    run md st (concat (map feature_tokens fs)) = (evs, Some st') /\
    between o st' /\ map summary evs = map (fun f => expected (o, f)) fs.
Proof.
  induction fs as [|f fs IH]; intros st Hst; [by exists [], st|].
  cbn [map concat]. rewrite run_app.
  destruct (run_feature md o f st Hst) as (e & st1 & -> & Hst1 & He).
  destruct (IH st1 Hst1) as (evs & st2 & -> & Hst2 & Hevs).
  exists (e :: evs), st2. cbn. by rewrite He, Hevs.
Qed.

(** The state between two sections: the scratch elements are fresh. *)
Lemma run_section md s st :
  newElem st = false -> state_ids st = (0, 0, 0) ->
  exists evs st',
    run md st (section_tokens s) = (evs, Some st') /\
    newElem st' = false /\ state_ids st' = (0, 0, 0) /\
    map summary evs = map (fun f => expected (op s, f)) (features s).
Proof.
  intros Hn Hid. unfold section_tokens, element. cbn [run round].
  set (st1 := startElement md st _ _).
  assert (between (op s) st1) as Hst1.
  { subst st1. unfold between, startElement.
    by destruct (op s); cbn. }
  rewrite run_app.
  destruct (run_features md (op s) (features s) st1 Hst1)
    as (evs & st2 & -> & (Hn2 & _ & Hid2) & Hevs).
  cbn [run round fst snd app].
  rewrite endElement_other; [|done|by destruct (op s)..].
  exists evs, st2. by rewrite app_nil_r.
Qed.

Lemma run_sections md ss : forall st,
  newElem st = false -> state_ids st = (0, 0, 0) ->
  exists evs st',
    run md st (concat (map section_tokens ss)) = (evs, Some st') /\
    newElem st' = false /\ state_ids st' = (0, 0, 0) /\
    map summary evs =
    map expected
      (concat (map (fun s => map (fun f => (op s, f)) (features s)) ss)).
Proof.
  induction ss as [|s ss IH]; intros st Hn Hid; [by exists [], st|].
  cbn [map concat]. rewrite run_app.
  destruct (run_section md s st Hn Hid) as (evs1 & st1 & -> & Hn1 & Hid1 & He1).
  destruct (IH st1 Hn1 Hid1) as (evs2 & st2 & -> & Hn2 & Hid2 & He2).
  exists (evs1 ++ evs2), st2. cbn [fst snd]. repeat split; [done..|].
  rewrite !map_app, He1, He2. f_equal. by rewrite map_map.
Qed.

Lemma run_file md d :
  exists evs,
    run md init (tokens d) = (evs, None) /\
    map summary evs = map expected (file_features d).
Proof.
  unfold tokens, element. cbn [run round].
  set (st1 := startElement md init _ _).
  assert (st1 = init) as -> by done.
  rewrite run_app.
  destruct (run_sections md (sections d) init) as (evs & st2 & -> & _ & _ & He);
    [done..|].
  exists evs. cbn [run round fst snd]. rewrite endElement_file by done.
  by rewrite app_nil_r.
Qed.

Lemma summary_one e k o i :
  summary e = (Some k, Some o, Some i) ->
  payloads e = 1%nat /\ flags e = 1%nat.
Proof.
  unfold summary, event_kind, event_op, payloads, flags. intros [= Hk Ho _].
  split.
  - by destruct (DNode e), (DWay e), (DRel e).
  - by destruct (Add e), (Mod e), (Del e).
Qed.

(** C3: on a file of the format, whatever text stands between its tags,
    the parser sends one event for each [node], [way] and [relation]
    element, in the order of the file, each with the one payload of its
    kind and the one flag of its section, and closes without an error. *)
Theorem C3_one_event_per_element (md : bool) (d : File) (toks : list Token)
    (err : string) :
  filter (fun t => is_tag t = true) toks = tokens d ->
  exists evs,
    parse (Tokens toks err) md = map SendElem evs ++ closing /\
    length evs = length (file_features d) /\
    map summary evs = map expected (file_features d) /\
    Forall (fun e => payloads e = 1%nat /\ flags e = 1%nat) evs.
Proof.
  intros Htoks. destruct (run_file md d) as (evs & Hrun & Hsum).
  exists evs. split; [|split; [|split; [done|]]].
  - cbn [parse]. rewrite loop_run, run_tags, Htoks, Hrun. cbn [fst snd].
    by rewrite app_nil_r.
  - by rewrite <- (length_map summary), Hsum, length_map.
  - clear Hrun. revert evs Hsum.
    induction (file_features d) as [|[o f] fs IH]; intros [|e evs] Hs;
      try done.
    cbn [map] in Hs. apply (f_equal head) in Hs as He.
    apply (f_equal tail) in Hs. cbn [head tail] in He, Hs.
    assert (summary e = expected (o, f)) as He' by congruence.
    constructor; [|by apply IH].
    exact (summary_one e (kind f) o (feature_id f) He').
Qed.

(** ** Attribute values *)

(** Split on the name of the attribute [a]. *)
Ltac by_name a :=
  unfold attr_is; generalize (Local (Attr_Name a));
  let l := fresh "l" in
  intros l;
  repeat match goal with
  | |- context [String.eqb l ?s] => destruct (String.eqb_spec l s) as [->|?]
  end.


Lemma Lat_node_attr attr : forall n,
  Lat (foldl node_attr n attr) =
  match attr_value "lat" attr with
  | Some s => fst (ParseFloat s) | None => Lat n end.
Proof.
  induction attr as [|a attr IH]; intros n; [done|].
  cbn [foldl]. rewrite IH, attr_value_cons.
  destruct (attr_value "lat" attr); [done|].
  unfold node_attr. by_name a; reflexivity.
Qed.

Lemma Long_node_attr attr : forall n,
  Long (foldl node_attr n attr) =
  match attr_value "lon" attr with
  | Some s => fst (ParseFloat s) | None => Long n end.
Proof.
  induction attr as [|a attr IH]; intros n; [done|].
  cbn [foldl]. rewrite IH, attr_value_cons.
  destruct (attr_value "lon" attr); [done|].
  unfold node_attr. by_name a; reflexivity.
Qed.

Lemma Refs_nd_attr attr : forall w,
  Refs (foldl nd_attr w attr) =
  Refs w ++ map (fun a => fst (strconv.ParseInt (Value a)))
              (filter (fun a => Local (Attr_Name a) = "ref") attr).
Proof.
  induction attr as [|a attr IH]; intros w; [by rewrite app_nil_r|].
  cbn [foldl]. rewrite IH. unfold nd_attr, attr_is.
  destruct (String.eqb_spec (Local (Attr_Name a)) "ref").
  - rewrite filter_cons_True by done. cbn. by rewrite <- app_assoc.
  - by rewrite filter_cons_False by done.
Qed.

(** The provenance fields after [setElemMetadata]. *)
Lemma Metadata_attrs attr : forall m,
  let m' := foldl setElemMetadata_attr m attr in
  Version m' = match attr_value "version" attr with
               | Some s => fst (strconv.ParseInt s) | None => Version m end /\
  UserId m' = match attr_value "uid" attr with
              | Some s => fst (strconv.ParseInt s) | None => UserId m end /\
  Changeset m' = match attr_value "changeset" attr with
                 | Some s => fst (strconv.ParseInt s) | None => Changeset m end /\
  Timestamp m' = match attr_value "timestamp" attr with
                 | Some s => fst (time_Parse_RFC3339 s) | None => Timestamp m end.
Proof.
  induction attr as [|a attr IH]; intros m; [done|].
  cbn [foldl]. cbn zeta in *.
  destruct (IH (setElemMetadata_attr m a)) as (-> & -> & -> & ->).
  rewrite !attr_value_cons. unfold setElemMetadata_attr.
  by_name a; cbn;
    by destruct (attr_value "version" attr), (attr_value "uid" attr),
      (attr_value "changeset" attr), (attr_value "timestamp" attr).
Qed.



(** C8: scenario A gives one event, flagged as modified only, carrying the
    node 1 at the latitude and longitude the texts 1.0 and 2.0 stand for,
    with the tag amenity=restaurant, and then the channels are closed
    without an error. *)
Theorem C8_scenario_A (md : bool) (err : string) :
  parse (Tokens sample.scenario_A err) md =
  [ SendElem
      (mkDiffElem false true false
         (Some (mkNode
                  (mkOSMElem 1 (Some {[ "amenity" := "restaurant" ]})
                     (if md then Some Metadata_zero else None))
                  (fst (ParseFloat "1.0")) (fst (ParseFloat "2.0"))))
         None None);
    CloseFile; CloseErrc; CloseElems ].
Proof. destruct md; vm_compute; reflexivity. Qed.

End parse.

(** ** The theorems at work on the sample *)

#[local] Existing Instance sample.extern.

Lemma C4_witness :
  (exists evs,
     @parse sample.extern
       (Tokens [sample.start "osmChange" []; sample.start "create" [];
                sample.start "node" [("id", "1")]; sample.end_ "node";
                sample.start "way" [("id", "2")]]
          "unexpected EOF") false
     = map SendElem evs
       ++ [SendErr "unexpected EOF"; CloseFile; CloseErrc; CloseElems] /\
     length evs
     = length (filter (fun t => closes_feature t = true)
                 [sample.start "osmChange" []; sample.start "create" [];
                  sample.start "node" [("id", "1")]; sample.end_ "node";
                  sample.start "way" [("id", "2")]])) /\
  (exists evs,
     @parse sample.extern (Tokens sample.scenario_A "EOF") false
     = map SendElem evs ++ [CloseFile; CloseErrc; CloseElems]).
Proof.
  split.
  - apply (proj1 (proj2 (proj2 (@C4_fatal_errors_end_the_parse
             sample.extern false)))
           [sample.start "osmChange" []; sample.start "create" [];
            sample.start "node" [("id", "1")]; sample.end_ "node";
            sample.start "way" [("id", "2")]]
           "unexpected EOF").
    reflexivity.
  - apply (proj1 (proj2 (proj2 (proj2 (@C4_fatal_errors_end_the_parse
             sample.extern false))))
           sample.scenario_A "EOF").
    reflexivity.
Defined.

Lemma C3_witness :
  exists evs,
    @parse sample.extern (Tokens sample.change_tokens "EOF") true
    = map SendElem evs ++ closing /\
    length evs = length (file_features sample.change_file) /\
    map summary evs = map expected (file_features sample.change_file) /\
    Forall (fun e => payloads e = 1%nat /\ flags e = 1%nat) evs.
Proof.
  apply (@C3_one_event_per_element sample.extern true sample.change_file
           sample.change_tokens "EOF").
  vm_compute. reflexivity.
Defined.


(** Scenario B of the specification: the relation is sent with the two
    members around the dropped one. *)
Example scenario_B :
  elems (@Parse sample.extern
           (Tokens (sample.scenario_B_before
                    ++ sample.start "member" [("type", "bogus"); ("ref", "5")]
                       :: sample.scenario_B_after) "EOF"))
  = [ mkDiffElem true false false None None
        (Some (mkRelation (mkOSMElem 3 None None)
                 [ mkMember 1 sample.WAY "outer";
                   mkMember 7 sample.NODE "" ])) ].
Proof. reflexivity. Qed.



(** Scenario A on the sample, where the texts 1.0 and 2.0 are the numbers
    1 and 2. *)
Example scenario_A_sample :
  elems (@Parse sample.extern (Tokens sample.scenario_A "EOF"))
  = [ sample.event_A ].
Proof. reflexivity. Qed.

Lemma C9_witness :
  (flags sample.event_A <= 1)%nat /\
  (exists evs e rest,
     @parse sample.extern
       (Tokens ([sample.start "osmChange" []; sample.start "node" [("id", "4")]]
                ++ EndElement (mkName "" "node") :: [sample.end_ "osmChange"])
          "EOF") false
     = map SendElem evs ++ SendElem e :: rest /\
     length evs
     = length (filter (fun t => closes_feature t = true)
                 [sample.start "osmChange" []; sample.start "node" [("id", "4")]]) /\
     Add e = false /\ Mod e = false /\ Del e = false).
Proof.
  split.
  - apply (proj1 (@C9_at_most_one_flag sample.extern false)
             (Tokens sample.scenario_A "EOF")).
    change (elems (parse (Tokens sample.scenario_A "EOF") false))
      with [sample.event_A].
    apply list_elem_of_here.
  - apply (proj2 (@C9_at_most_one_flag sample.extern false)
             [sample.start "osmChange" []; sample.start "node" [("id", "4")]]
             (mkName "" "node") [sample.end_ "osmChange"] "EOF").
    + repeat constructor.
    + reflexivity.
Defined.


(** What that member is. *)
Example member_without_type :
  Members (rel (@startElement sample.extern false init (mkName "" "member")
                  (sample.attrs [("role", "inner"); ("ref", "9")])))
  = [ mkMember 9 sample.NODE "inner" ].
Proof. reflexivity. Qed.

End parser_spec.

(** * More on the tag filters *)

Module mapping_more.
Import mapping mapping_spec.

(** X1: Go visits the entries of a map in an order of its own choosing;
    whatever order the loop of [Filter] takes over the entries of the tag
    map, the tags left and the boolean returned are the same. *)
Theorem X1_Filter_any_iteration_order (f : TagFilter)
    (tags : gmap string string) (entries : list (string * string)) :
  entries ≡ₚ map_to_list tags ->
  Filter_range f entries (tags, false) = Filter f tags.
Proof. apply Filter_any_order. Qed.

Lemma X1_witness :
  Filter_range
    (mkTagFilter {[ "shop" := {[ "bakery" := [] ]} ]} {[ "name" := true ]})
    (reverse (map_to_list
       ({[ "shop" := "bakery"; "name" := "Joe's"; "foo" := "bar" ]}
          : gmap string string)))
    ({[ "shop" := "bakery"; "name" := "Joe's"; "foo" := "bar" ]}, false)
  = Filter
      (mkTagFilter {[ "shop" := {[ "bakery" := [] ]} ]} {[ "name" := true ]})
      {[ "shop" := "bakery"; "name" := "Joe's"; "foo" := "bar" ]}.
Proof.
  apply (X1_Filter_any_iteration_order
           (mkTagFilter {[ "shop" := {[ "bakery" := [] ]} ]} {[ "name" := true ]})
           {[ "shop" := "bakery"; "name" := "Joe's"; "foo" := "bar" ]}
           (reverse (map_to_list
              ({[ "shop" := "bakery"; "name" := "Joe's"; "foo" := "bar" ]}
                 : gmap string string)))).
  apply reverse_Permutation.
Defined.

(** X2: when [Filter] returns true, a tag that matched a rule is still in
    the map; when it returns false, every key still in the map is one of
    the extra tags. *)
Theorem X2_Filter_verdict_and_survivors (f : TagFilter)
    (tags : gmap string string) :
  (snd (Filter f tags) = true ->
   exists k v, fst (Filter f tags) !! k = Some v /\
               (any_rule f k \/ value_rule f k v)) /\
  (snd (Filter f tags) = false ->
   forall k, is_Some (fst (Filter f tags) !! k) -> always_retained f k).
Proof.
  split.
  - intros (k & v & Hk & Hf)%Filter_verdict. exists k, v. split.
    + apply Filter_lookup. split; [done|]. unfold retained. by rewrite Hf.
    + by apply found_iff.
  - intros Hv k [v (Hk & Hr)%Filter_lookup].
    apply retained_iff in Hr as [Hr|[Hr|Hr]]; [| |done]; exfalso;
      (assert (snd (Filter f tags) = true) as Ht; [|congruence]);
      apply Filter_verdict; exists k, v; (split; [done|]);
      apply found_iff; tauto.
Qed.

Lemma X2_witness :
  (exists k v,
     fst (Filter (mkTagFilter {[ "shop" := {[ "bakery" := [] ]} ]}
                    {[ "name" := true ]})
            {[ "shop" := "bakery"; "foo" := "bar" ]}) !! k = Some v /\
     (any_rule (mkTagFilter {[ "shop" := {[ "bakery" := [] ]} ]}
                  {[ "name" := true ]}) k \/
      value_rule (mkTagFilter {[ "shop" := {[ "bakery" := [] ]} ]}
                    {[ "name" := true ]}) k v)) /\
  always_retained (mkTagFilter {[ "shop" := {[ "bakery" := [] ]} ]}
                     {[ "name" := true ]}) "name".
Proof.
  split.
  - apply (proj1 (X2_Filter_verdict_and_survivors
             (mkTagFilter {[ "shop" := {[ "bakery" := [] ]} ]} {[ "name" := true ]})
             {[ "shop" := "bakery"; "foo" := "bar" ]})).
    vm_compute. reflexivity.
  - apply (proj2 (X2_Filter_verdict_and_survivors
             (mkTagFilter {[ "shop" := {[ "bakery" := [] ]} ]} {[ "name" := true ]})
             {[ "name" := "Joe's"; "foo" := "bar" ]})).
    + vm_compute. reflexivity.
    + vm_compute. eauto.
Defined.

(** X3: [Filter] only ever deletes: the tags left are a part of the tags
    given, with their values; and a larger tag map leaves more tags and is
    relevant whenever the smaller one is. *)
Theorem X3_Filter_only_deletes_and_is_monotone (f : TagFilter)
    (tags tags' : gmap string string) :
  fst (Filter f tags) ⊆ tags /\
  (tags ⊆ tags' ->
   fst (Filter f tags) ⊆ fst (Filter f tags') /\
   (snd (Filter f tags) = true -> snd (Filter f tags') = true)).
Proof.
  split.
  - apply map_subseteq_spec. by intros k v [Hk _]%Filter_lookup.
  - intros Hsub. rewrite map_subseteq_spec in Hsub. split.
    + apply map_subseteq_spec. intros k v [Hk Hr]%Filter_lookup.
      apply Filter_lookup. auto.
    + intros (k & v & Hk & Hf)%Filter_verdict. apply Filter_verdict. eauto.
Qed.

Lemma X3_witness :
  fst (Filter (mkTagFilter {[ "shop" := {[ "bakery" := [] ]} ]} ∅)
         {[ "shop" := "bakery" ]})
  ⊆ fst (Filter (mkTagFilter {[ "shop" := {[ "bakery" := [] ]} ]} ∅)
           {[ "shop" := "bakery"; "foo" := "bar" ]}) /\
  (snd (Filter (mkTagFilter {[ "shop" := {[ "bakery" := [] ]} ]} ∅)
          {[ "shop" := "bakery" ]}) = true ->
   snd (Filter (mkTagFilter {[ "shop" := {[ "bakery" := [] ]} ]} ∅)
          {[ "shop" := "bakery"; "foo" := "bar" ]}) = true).
Proof.
  apply (proj2 (X3_Filter_only_deletes_and_is_monotone
           (mkTagFilter {[ "shop" := {[ "bakery" := [] ]} ]} ∅)
           {[ "shop" := "bakery" ]}
           {[ "shop" := "bakery"; "foo" := "bar" ]})).
  apply map_subseteq_spec. intros k v Hk.
  destruct (decide (k = "shop")) as [->|Hne].
  - rewrite lookup_singleton_eq in Hk. injection Hk as <-. reflexivity.
  - by rewrite lookup_singleton_ne in Hk.
Defined.

(** X4: two filters applied one after the other leave the same tags in
    either order: the tags both of them retain. *)
Theorem X4_Filter_tags_commute (f g : TagFilter) (tags : gmap string string) :
  fst (Filter f (fst (Filter g tags))) = fst (Filter g (fst (Filter f tags))) /\
  forall k v,
    fst (Filter f (fst (Filter g tags))) !! k = Some v <->
    fst (Filter f tags) !! k = Some v /\ fst (Filter g tags) !! k = Some v.
Proof.
  split.
  - apply map_eq. intros k. apply option_eq. intros v.
    rewrite !Filter_lookup. tauto.
  - intros k v. rewrite !Filter_lookup. tauto.
Qed.

(** X5: the relation filter of a mapping returns true exactly for the tag
    maps with an accepted type, and then the type tag is still there with
    its value, whatever the rules say of it. *)
Theorem X5_RelationFilter_keeps_type (m : Mapping) (tags : gmap string string) :
  (snd (RelationFilter (NewRelationTagFilter m) tags) = true <->
   exists t, tags !! "type" = Some t /\ t ∈ accepted_types) /\
  (snd (RelationFilter (NewRelationTagFilter m) tags) = true ->
   fst (RelationFilter (NewRelationTagFilter m) tags) !! "type"
   = tags !! "type").
Proof.
  rewrite RelationFilter_eq.
  destruct (tags !! "type") as [t|] eqn:Ht.
  - case_bool_decide as Hacc; cbn [fst snd].
    + split; [split; [eauto|done]|]. intros _.
      by apply NewRelationTagFilter_keeps_type.
    + split; [|done]. split; [done|]. by intros (t' & [= <-] & ?).
  - cbn. split; [|done]. split; [done|]. by intros (t' & ? & _).
Qed.

Lemma X5_witness :
  fst (RelationFilter (NewRelationTagFilter
                         (mkMapping (fun _ r => r) (fun _ t => t)))
         {[ "type" := "boundary"; "name" := "7" ]}) !! "type"
  = ({[ "type" := "boundary"; "name" := "7" ]} : gmap string string) !! "type".
Proof.
  apply (proj2 (X5_RelationFilter_keeps_type
           (mkMapping (fun _ r => r) (fun _ t => t))
           {[ "type" := "boundary"; "name" := "7" ]})).
  vm_compute. reflexivity.
Defined.

(** X6: on the same mapping the relation filter prunes like the way
    filter: the two keep the same tags but for the type tag, and find the
    same rule matches. *)
Theorem X6_relation_prunes_like_way (m : Mapping) (tags : gmap string string) :
  (forall k, k <> "type" ->
     fst (Filter (TagFilter_of (NewRelationTagFilter m)) tags) !! k
     = fst (Filter (WayTagFilter m) tags) !! k) /\
  snd (Filter (TagFilter_of (NewRelationTagFilter m)) tags)
  = snd (Filter (WayTagFilter m) tags).
Proof.
  assert (forall k v,
    found (TagFilter_of (NewRelationTagFilter m)) k v
    = found (WayTagFilter m) k v) as Hfound by done.
  split.
  - intros k Hk. apply option_eq. intros v. rewrite !Filter_lookup.
    unfold retained. rewrite Hfound.
    unfold NewRelationTagFilter, WayTagFilter. cbn [TagFilter_of extraTags].
    by rewrite lookup_insert_ne.
  - apply eq_true_iff_eq. rewrite !Filter_verdict.
    by setoid_rewrite Hfound.
Qed.

Lemma X6_witness :
  fst (Filter (TagFilter_of (NewRelationTagFilter
                               (mkMapping (fun _ r => r) (fun _ t => t))))
         {[ "type" := "boundary"; "name" := "7" ]}) !! "name"
  = fst (Filter (WayTagFilter (mkMapping (fun _ r => r) (fun _ t => t)))
           {[ "type" := "boundary"; "name" := "7" ]}) !! "name".
Proof.
  apply (proj1 (X6_relation_prunes_like_way
           (mkMapping (fun _ r => r) (fun _ t => t))
           {[ "type" := "boundary"; "name" := "7" ]}) "name").
  discriminate.
Defined.

(** X7: a filter without any rule never finds a feature relevant and
    leaves exactly the tags whose keys are extra tags; and on a feature
    without tags every filter returns false. *)
Theorem X7_Filter_without_rules (f : TagFilter) (tags : gmap string string) :
  (mappings f = ∅ ->
   snd (Filter f tags) = false /\
   forall k, fst (Filter f tags) !! k
             = if bool_decide (is_Some (extraTags f !! k))
               then tags !! k else None) /\
  Filter f ∅ = (∅, false).
Proof.
  split.
  - intros Hm.
    assert (forall k v, found f k v = false) as Hfound.
    { intros k v. unfold found. by rewrite Hm, lookup_empty. }
    split.
    + destruct (snd (Filter f tags)) eqn:Hv; [|done].
      apply Filter_verdict in Hv as (k & v & _ & Hf). by rewrite Hfound in Hf.
    + intros k. apply option_eq. intros v. rewrite Filter_lookup.
      unfold retained. rewrite Hfound. cbn [orb].
      destruct (bool_decide (is_Some (extraTags f !! k))); [tauto|].
      split; [by intros [_ ?]|done].
  - unfold Filter. by rewrite map_to_list_empty.
Qed.

Lemma X7_witness :
  snd (Filter (mkTagFilter ∅ {[ "name" := true ]})
         {[ "name" := "Joe's"; "foo" := "bar" ]}) = false /\
  forall k,
    fst (Filter (mkTagFilter ∅ {[ "name" := true ]})
           {[ "name" := "Joe's"; "foo" := "bar" ]}) !! k
    = if bool_decide (is_Some (extraTags (mkTagFilter ∅ {[ "name" := true ]}) !! k))
      then ({[ "name" := "Joe's"; "foo" := "bar" ]} : gmap string string) !! k
      else None.
Proof.
  apply (proj1 (X7_Filter_without_rules
           (mkTagFilter ∅ {[ "name" := true ]})
           {[ "name" := "Joe's"; "foo" := "bar" ]})).
  reflexivity.
Defined.

End mapping_more.

(** * More on the change parser *)

Module parser_more.
Import xml element parser osc events reading parser_spec.

Ltac start_cases :=
  unfold startElement; cbn zeta;
  repeat match goal with
  | |- context [String.eqb ?a ?b] => destruct (String.eqb a b) eqn:?
  end;
  try match goal with
  | |- context [member_attrs ?m ?a] => destruct (member_attrs m a)
  end;
  try match goal with
  | |- context [foldl tag_attr ?x ?a] => destruct (foldl tag_attr x a)
  end.

Ltac by_name a :=
  unfold attr_is; generalize (Local (Attr_Name a));
  let l := fresh "l" in
  intros l;
  repeat match goal with
  | |- context [String.eqb l ?s] => destruct (String.eqb_spec l s) as [->|?]
  end.

Section stream.
Context `{Extern}.

(** ** Tokens the loop passes over *)

Lemma round_newElem md st tok st' sent :
  newElem st = false -> round md st tok = Next st' sent -> newElem st' = false.
Proof.
  intros Hn Hr.
  destruct (round_cases md st tok Hn)
    as [[_ Hq]|[(_ & _ & st1 & e & Hq & Hn1 & _)|(_ & _ & st1 & Hq & Hn1 & _)]];
    congruence.
Qed.

Lemma round_inert md st tok :
  newElem st = false -> inert tok = true -> round md st tok = Next st None.
Proof.
  intros Hn Hi. destruct tok as [name attr|name| | | |]; try done.
  - cbn [round]. f_equal. cbn in Hi. apply negb_true_iff in Hi.
    repeat (apply orb_false_iff in Hi as [? Hi]).
    unfold startElement. cbn zeta.
    repeat match goal with
    | Heq : String.eqb _ _ = false |- _ => rewrite Heq; clear Heq
    end.
    by destruct (String.eqb (Local name) "osmChange").
  - cbn [inert] in Hi. apply negb_true_iff, orb_false_iff in Hi as [Hc Hf].
    by apply endElement_other.
Qed.

Lemma run_inert md toks : forall st,
  newElem st = false ->
  run md st (filter (fun t => inert t = false) toks) = run md st toks.
Proof.
  induction toks as [|tok toks IH]; intros st Hn; [done|].
  destruct (inert tok) eqn:Hi.
  - rewrite filter_cons_False by (by rewrite Hi). cbn [run].
    rewrite round_inert by done. rewrite IH by done.
    by destruct (run md st toks).
  - rewrite filter_cons_True by done. cbn [run].
    destruct (round md st tok) as [st' sent|] eqn:Hr; [|done].
    rewrite IH; [done|]. by eapply round_newElem.
Qed.

(** X8: text, comments, declarations, start tags with names the parser
    does not handle and end tags other than those of node, way, relation
    and osmChange can be taken out of the input: the parse is the same. *)
Theorem X8_inert_tokens_do_not_matter (md : bool) (toks : list Token)
    (err : string) :
  parse (Tokens (filter (fun t => inert t = false) toks) err) md
  = parse (Tokens toks err) md.
Proof.
  destruct init_ready as [Hn _]. cbn [parse].
  by rewrite !loop_run, run_inert.
Qed.

(** X9: the loop returns at [</osmChange>]: neither the tokens after it
    nor the way the token stream ends change the parse. *)
Theorem X9_nothing_is_read_after_the_end (md : bool) (pre post post' : list Token)
    (name : Name) (err err' : string) :
  closes_file (EndElement name) = true ->
  parse (Tokens (pre ++ EndElement name :: post) err) md
  = parse (Tokens (pre ++ EndElement name :: post') err') md.
Proof.
  intros Hc. cbn [parse]. f_equal. generalize (@init H).
  induction pre as [|tok pre IH]; intros st; cbn [app loop].
  - cbn [round]. by rewrite endElement_file.
  - destruct (round md st tok) as [st' [e|]|]; by rewrite ?IH.
Qed.

(** ** The kind and the flags of every event *)

Lemma closing_kind_feature tok :
  closes_feature tok = true <-> is_Some (closing_kind tok).
Proof.
  destruct tok as [|name| | | |]; cbn; try (split; [done|by intros [? ?]]).
  destruct (String.eqb (Local name) "node"); [by eauto|].
  destruct (String.eqb (Local name) "way"); [by eauto|].
  destruct (String.eqb (Local name) "relation"); [by eauto|].
  split; [done|by intros [? ?]].
Qed.

Lemma closing_kind_name name k :
  closing_kind (EndElement name) = Some k -> Local name = kind_name k.
Proof.
  cbn. destruct (String.eqb_spec (Local name) "node"); [by intros [= <-]|].
  destruct (String.eqb_spec (Local name) "way"); [by intros [= <-]|].
  destruct (String.eqb_spec (Local name) "relation"); [by intros [= <-]|done].
Qed.

Lemma endElement_Local st name :
  endElement st name = endElement st (mkName "" (Local name)).
Proof. done. Qed.

Lemma startElement_section_flags md st name attr :
  state_flags (startElement md st name attr)
  = default (state_flags st) (section_flags (StartElement name attr)).
Proof.
  destruct (opens_section (StartElement name attr)) eqn:Ho.
  - cbn in Ho. unfold startElement. cbn.
    destruct (String.eqb (Local name) "create"); [done|].
    destruct (String.eqb (Local name) "modify"); [done|].
    by destruct (String.eqb (Local name) "delete").
  - rewrite startElement_same_flags by done. cbn in Ho. cbn.
    apply orb_false_iff in Ho as [[-> ->]%orb_false_iff ->]. done.
Qed.

Lemma run_closed md toks : forall st,
  newElem st = false ->
  map (fun e => (event_kind e, event_flags e)) (fst (run md st toks))
  = map (fun x => (Some x.1, x.2)) (closed (state_flags st) toks).
Proof.
  induction toks as [|tok toks IH]; intros st Hn; [done|].
  cbn [run closed].
  destruct tok as [name attr|name|data|data|target inst|data];
    try (cbn; rewrite <- IH by done; by destruct (run md st toks)).
  - cbn [round closes_file closing_kind].
    rewrite <- (startElement_section_flags md st name attr).
    rewrite <- IH by (by rewrite startElement_newElem).
    by destruct (run md _ toks).
  - destruct (closes_file (EndElement name)) eqn:Hf.
    { cbn [round]. by rewrite endElement_file. }
    destruct (closing_kind (EndElement name)) as [k|] eqn:Hk.
    + cbn [round]. rewrite endElement_Local, (closing_kind_name name k Hk).
      destruct (endElement_kind st k Hn)
        as (e & st' & -> & Hn' & Hfl & He & Hek & _).
      cbn [map fst snd]. rewrite <- Hfl at 2. rewrite <- (IH st' Hn').
      destruct (run md st' toks) as [evs r]. cbn. by rewrite Hek, He.
    + cbn [round]. rewrite endElement_other; [|done| |done].
      * cbn. rewrite <- IH by done. by destruct (run md st toks).
      * destruct (closes_feature (EndElement name)) eqn:Hc; [|done].
        apply closing_kind_feature in Hc as [k' Hc]. congruence.
Qed.

(** X10: on every token stream the events are, in order, one for each
    closing node, way or relation tag before the first [</osmChange>], of
    the kind of that tag, with the flags of the last create, modify or
    delete start tag before it (none set when there was none). *)
Theorem X10_events_follow_the_closing_tags (md : bool) (toks : list Token)
    (err : string) :
  map (fun e => (event_kind e, event_flags e))
    (elems (parse (Tokens toks err) md))
  = map (fun x => (Some x.1, x.2)) (closed (false, false, false) toks).
Proof.
  destruct init_ready as [Hn _]. rewrite elems_parse.
  by rewrite run_closed.
Qed.

(** ** The tag map of an event *)

(** Split [endElement] by the name of the tag. *)
Ltac end_cases name :=
  unfold endElement, emit; cbn zeta;
  destruct (String.eqb (Local name) "node");
    [|destruct (String.eqb (Local name) "way");
      [|destruct (String.eqb (Local name) "relation");
        [|destruct (String.eqb (Local name) "osmChange")]]].

Lemma rest_node_attr attr : forall n,
  Tags (Node_OSMElem (foldl node_attr n attr)) = Tags (Node_OSMElem n) /\
  Meta (Node_OSMElem (foldl node_attr n attr)) = Meta (Node_OSMElem n).
Proof.
  induction attr as [|a attr IH]; intros n; [done|].
  cbn [foldl]. destruct (IH (node_attr n a)) as [-> ->].
  unfold node_attr. by_name a; done.
Qed.

Lemma rest_id_attr attr : forall e,
  Tags (foldl id_attr e attr) = Tags e /\ Meta (foldl id_attr e attr) = Meta e.
Proof.
  induction attr as [|a attr IH]; intros e; [done|].
  cbn [foldl]. destruct (IH (id_attr e a)) as [-> ->].
  unfold id_attr. by destruct (attr_is a "id").
Qed.

Lemma OSMElem_nd_attr attr : forall w,
  Way_OSMElem (foldl nd_attr w attr) = Way_OSMElem w.
Proof.
  induction attr as [|a attr IH]; intros w; [done|].
  cbn [foldl]. rewrite IH. unfold nd_attr. by destruct (attr_is a "ref").
Qed.

Lemma startElement_untagged md st name attr :
  untagged st -> untagged (startElement md st name attr).
Proof.
  intros (Hn & Hw & Hr). unfold untagged. start_cases; cbn; try done.
  - destruct md; cbn;
      by rewrite (proj1 (rest_node_attr attr (node st))).
  - destruct md; cbn;
      by rewrite (proj1 (rest_id_attr attr (Way_OSMElem (way st)))).
  - destruct md; cbn;
      by rewrite (proj1 (rest_id_attr attr (Relation_OSMElem (rel st)))).
  - by rewrite OSMElem_nd_attr.
Qed.

Lemma attach_tags_not_empty t e :
  Tags e = None -> Tags (attach_tags t e) <> Some ∅.
Proof.
  intros He. unfold attach_tags. case_bool_decide as Hs; cbn.
  - intros [= ->]. rewrite map_size_empty in Hs. lia.
  - by rewrite He.
Qed.

Lemma endElement_untagged st name :
  newElem st = false -> untagged st ->
  match endElement st name with
  | Next st' sent =>
      untagged st' /\ from_option (fun e => event_tags e <> Some ∅) True sent
  | Return => True
  end.
Proof.
  intros Hn (Hnode & Hway & Hrel). end_cases name; try done.
  - cbn. split; [by case_bool_decide|].
    unfold event_tags. cbn. by apply attach_tags_not_empty.
  - cbn. split; [by case_bool_decide|].
    unfold event_tags. cbn. by apply attach_tags_not_empty.
  - cbn. split; [by case_bool_decide|].
    unfold event_tags. cbn. by apply attach_tags_not_empty.
  - by rewrite Hn.
Qed.

Lemma run_untagged md toks : forall st,
  newElem st = false -> untagged st ->
  Forall (fun e => event_tags e <> Some ∅) (fst (run md st toks)).
Proof.
  induction toks as [|tok toks IH]; intros st Hn Hu; [by constructor|].
  cbn [run]. destruct (round md st tok) as [st' sent|] eqn:Hr;
    [|by constructor].
  assert (newElem st' = false) as Hn' by (by eapply round_newElem).
  assert (untagged st' /\ from_option (fun e => event_tags e <> Some ∅) True sent)
    as [Hu' Hsent].
  { destruct tok as [name attr|name| | | |]; cbn in Hr;
      try (injection Hr as <- <-; done).
    - injection Hr as <- <-. split; [|done]. by apply startElement_untagged.
    - pose proof (endElement_untagged st name Hn Hu) as He.
      by rewrite Hr in He. }
  specialize (IH st' Hn' Hu'). destruct (run md st' toks) as [evs r].
  cbn [fst] in *. destruct sent as [e|]; [|done]. by constructor.
Qed.

(** X11: no event carries an empty tag map: the tags of an event are nil
    or hold at least one tag, on every input. *)
Theorem X11_tags_are_nil_or_not_empty (md : bool) (input : Input) (e : DiffElem) :
  e ∈ elems (parse input md) -> event_tags e <> Some ∅.
Proof.
  destruct input as [err|err|toks err]; [by intros ?%elem_of_nil..|].
  rewrite elems_parse. intros He.
  assert (Forall (fun e => event_tags e <> Some ∅) (fst (run md init toks)))
    as Hall by (by apply run_untagged).
  rewrite Forall_forall in Hall. by apply Hall.
Qed.

(** ** With and without provenance *)











(** ** The integers stay in range *)

Ltac each :=
  repeat first [apply Forall_nil_2 | apply Forall_cons_2]; try done.

Lemma to_int64_int64 x : int64 (strconv.to_int64 x).
Proof.
  unfold int64, strconv.to_int64.
  pose proof (Z.mod_pos_bound (x + 2 ^ 63) (2 ^ 64)). lia.
Qed.

Lemma ParseInt_int64 s : int64 (fst (strconv.ParseInt s)).
Proof.
  unfold strconv.ParseInt. destruct s as [|c rest]; [by unfold int64|].
  destruct (if Ascii.eqb c "+" then (false, rest)
            else if Ascii.eqb c "-" then (true, rest)
            else (false, String c rest)) as [neg s1].
  assert (int64 0 /\ int64 (2 ^ 63 - 1) /\ int64 (- 2 ^ 63)) as (H0 & H1 & H2)
    by (unfold int64; lia).
  destruct (strconv.ParseUint s1) as [un [[]|]]; [done| |];
    destruct (negb neg && (2 ^ 63 <=? un)); cbn [fst]; try done;
    destruct (neg && (2 ^ 63 <? un)); cbn [fst]; try done;
    destruct neg; apply to_int64_int64.
Qed.

Lemma int64_0 : int64 0.
Proof. unfold int64. lia. Qed.

Lemma ints_setElemMetadata_attr m a :
  Forall int64 [UserId m; Version m; Changeset m] ->
  Forall int64 [UserId (setElemMetadata_attr m a);
                Version (setElemMetadata_attr m a);
                Changeset (setElemMetadata_attr m a)].
Proof.
  intros Hm. apply Forall_cons in Hm as [Hu Hm].
  apply Forall_cons in Hm as [Hv Hm]. apply Forall_cons in Hm as [Hc _].
  pose proof (ParseInt_int64 (Value a)).
  unfold setElemMetadata_attr.
  destruct (attr_is a "version"); [each|].
  destruct (attr_is a "uid"); [each|].
  destruct (attr_is a "user"); [each|].
  destruct (attr_is a "changeset"); [each|].
  destruct (attr_is a "timestamp"); each.
Qed.

Lemma ints_setElemMetadata attr e :
  int64 (Id e) -> Forall int64 (elem_ints (setElemMetadata attr e)).
Proof.
  intros He. unfold elem_ints, setElemMetadata. cbn. constructor; [done|].
  assert (forall m, Forall int64 [UserId m; Version m; Changeset m] ->
    Forall int64 [UserId (foldl setElemMetadata_attr m attr);
                  Version (foldl setElemMetadata_attr m attr);
                  Changeset (foldl setElemMetadata_attr m attr)]) as Hfold.
  { induction attr as [|a attr IH]; intros m Hm; [done|].
    cbn [foldl]. by apply IH, ints_setElemMetadata_attr. }
  apply Hfold. each; apply int64_0.
Qed.

Lemma ints_id_attr attr : forall e,
  Forall int64 (elem_ints e) -> Forall int64 (elem_ints (foldl id_attr e attr)).
Proof.
  induction attr as [|a attr IH]; intros e He; [done|].
  cbn [foldl]. apply IH. unfold id_attr.
  destruct (attr_is a "id"); [|done].
  apply Forall_cons in He as [_ He]. constructor; [|done].
  apply ParseInt_int64.
Qed.

Lemma ints_node_attr attr : forall n,
  Forall int64 (node_ints n) -> Forall int64 (node_ints (foldl node_attr n attr)).
Proof.
  induction attr as [|a attr IH]; intros n Hn; [done|].
  cbn [foldl]. apply IH. unfold node_attr.
  destruct (attr_is a "id").
  - apply Forall_cons in Hn as [_ Hn]. constructor; [|done].
    apply ParseInt_int64.
  - by destruct (attr_is a "lat"), (attr_is a "lon").
Qed.

Lemma ints_Id e : Forall int64 (elem_ints e) -> int64 (Id e).
Proof. by intros [? _]%Forall_cons. Qed.

Lemma ints_nd_attr attr : forall w,
  Forall int64 (way_ints w) -> Forall int64 (way_ints (foldl nd_attr w attr)).
Proof.
  induction attr as [|a attr IH]; intros w Hw; [done|].
  cbn [foldl]. apply IH. unfold nd_attr.
  destruct (attr_is a "ref"); [|done].
  unfold way_ints in *. cbn [Way_OSMElem Refs].
  apply Forall_app in Hw as [He Hr]. rewrite !Forall_app.
  repeat split; [done..|]. each. apply ParseInt_int64.
Qed.

Lemma ints_member_attrs attr : forall m m',
  int64 (Member_Id m) -> member_attrs m attr = Some m' -> int64 (Member_Id m').
Proof.
  induction attr as [|a attr IH]; intros m m' Hm; cbn [member_attrs].
  - by intros [= <-].
  - destruct (attr_is a "type").
    { destruct (MemberTypeValues !! Value a); [|done]. by apply IH. }
    destruct (attr_is a "role"); [by apply IH|].
    destruct (attr_is a "ref"); [|by apply IH].
    pose proof (ParseInt_int64 (Value a)) as Hp.
    destruct (strconv.ParseInt (Value a)) as [x [e|]]; [done|].
    by apply IH.
Qed.

Ltac state_fields :=
  cbn [node way rel add mod_ del tags newElem set_flags set_tags set_node
       set_way set_rel set_newElem].

Lemma startElement_ints md st name attr :
  Forall int64 (state_ints st) ->
  Forall int64 (state_ints (startElement md st name attr)).
Proof.
  intros Hst. unfold state_ints in *.
  apply Forall_app in Hst as [Hn Hst]. apply Forall_app in Hst as [Hw Hr].
  unfold startElement. cbn zeta.
  repeat match goal with
  | |- context [String.eqb ?a ?b] => destruct (String.eqb a b) eqn:?
  end; try (state_fields; rewrite !Forall_app; done).
  - state_fields. rewrite !Forall_app. split; [|done].
    pose proof (ints_node_attr attr (node st) Hn) as Hn'.
    destruct md; [|done]. unfold node_ints. cbn [Node_OSMElem].
    by apply ints_setElemMetadata, ints_Id.
  - state_fields. rewrite !Forall_app. split; [done|]. split; [|done].
    unfold way_ints in *. cbn [Way_OSMElem Refs].
    apply Forall_app in Hw as [He Hrefs].
    apply Forall_app. split; [|done].
    pose proof (ints_id_attr attr _ He) as He'.
    destruct md; [|done]. by apply ints_setElemMetadata, ints_Id.
  - state_fields. rewrite !Forall_app. split; [done|]. split; [done|].
    unfold rel_ints in *. cbn [Relation_OSMElem Members].
    apply Forall_app in Hr as [He Hm].
    apply Forall_app. split; [|done].
    pose proof (ints_id_attr attr _ He) as He'.
    destruct md; [|done]. by apply ints_setElemMetadata, ints_Id.
  - state_fields. rewrite !Forall_app. split; [done|]. split; [|done].
    by apply ints_nd_attr.
  - destruct (member_attrs Member_zero attr) as [m|] eqn:Hm;
      [|rewrite !Forall_app; done].
    state_fields. rewrite !Forall_app. split; [done|]. split; [done|].
    unfold rel_ints in *. cbn [Relation_OSMElem Members].
    apply Forall_app in Hr as [He Hms].
    rewrite map_app, !Forall_app. repeat split; [done..|].
    each.
    apply (ints_member_attrs attr Member_zero m); [apply int64_0|done].
  - destruct (foldl tag_attr _ attr). state_fields. rewrite !Forall_app. done.
Qed.

Lemma ints_attach_tags t e : elem_ints (attach_tags t e) = elem_ints e.
Proof. unfold attach_tags. by case_bool_decide. Qed.

Lemma ints_zero :
  Forall int64 (node_ints Node_zero) /\ Forall int64 (way_ints Way_zero) /\
  Forall int64 (rel_ints Relation_zero).
Proof. repeat split; cbn; each; apply int64_0. Qed.

Lemma endElement_ints st name :
  Forall int64 (state_ints st) ->
  match endElement st name with
  | Next st' sent =>
      Forall int64 (state_ints st') /\
      from_option (fun e => Forall int64 (event_ints e)) True sent
  | Return => True
  end.
Proof.
  intros Hst. unfold state_ints in *.
  apply Forall_app in Hst as [Hn Hst]. apply Forall_app in Hst as [Hw Hr].
  destruct ints_zero as (Zn & Zw & Zr).
  end_cases name; try done; state_fields.
  - split.
    + case_bool_decide; state_fields; rewrite !Forall_app; done.
    + unfold event_ints, node_ints in *. cbn [DNode DWay DRel from_option
        Node_OSMElem]. rewrite ints_attach_tags. by rewrite !app_nil_r.
  - split.
    + case_bool_decide; state_fields; rewrite !Forall_app; done.
    + unfold event_ints, way_ints in *. cbn [DNode DWay DRel from_option
        Way_OSMElem Refs app]. rewrite ints_attach_tags. by rewrite !app_nil_r.
  - split.
    + case_bool_decide; state_fields; rewrite !Forall_app; done.
    + unfold event_ints, rel_ints in *. cbn [DNode DWay DRel from_option
        Relation_OSMElem Members app]. by rewrite ints_attach_tags.
  - destruct (newElem st); state_fields.
    + split; [|by constructor].
      case_bool_decide; state_fields; rewrite !Forall_app; done.
    + rewrite !Forall_app. done.
Qed.

Lemma run_ints md toks : forall st,
  Forall int64 (state_ints st) ->
  Forall (fun e => Forall int64 (event_ints e)) (fst (run md st toks)).
Proof.
  induction toks as [|tok toks IH]; intros st Hst; [by constructor|].
  cbn [run]. destruct (round md st tok) as [st' sent|] eqn:Hr;
    [|by constructor].
  assert (Forall int64 (state_ints st') /\
          from_option (fun e => Forall int64 (event_ints e)) True sent)
    as [Hst' Hsent].
  { destruct tok as [name attr|name| | | |]; cbn in Hr;
      try (injection Hr as <- <-; done).
    - injection Hr as <- <-. split; [|done]. by apply startElement_ints.
    - pose proof (endElement_ints st name Hst) as He. by rewrite Hr in He. }
  specialize (IH st' Hst'). destruct (run md st' toks) as [evs r].
  cbn [fst] in *. destruct sent as [e|]; [|done]. by constructor.
Qed.

(** X15: every integer of every event, the identifier, the references of
    a way, the identifiers of the members of a relation, and the version,
    user id and changeset of the provenance, is within the range of int64,
    on every input. *)
Theorem X15_integers_are_int64 (md : bool) (input : Input) (e : DiffElem) :
  e ∈ elems (parse input md) -> Forall int64 (event_ints e).
Proof.
  destruct input as [err|err|toks err]; [by intros ?%elem_of_nil..|].
  rewrite elems_parse. intros He.
  assert (Forall (fun e => Forall int64 (event_ints e)) (fst (run md init toks)))
    as Hall.
  { apply run_ints. unfold state_ints. cbn. each; apply int64_0. }
  rewrite Forall_forall in Hall. by apply Hall.
Qed.

End stream.

Section files.
Context `{Extern}.

(** ** The elements of a file, one by one *)

Lemma pair_tag_attr attr : forall kv,
  foldl tag_attr kv attr
  = (default kv.1 (attr_value "k" attr), default kv.2 (attr_value "v" attr)).
Proof.
  induction attr as [|a attr IH]; intros [k v]; [done|].
  cbn [foldl]. rewrite IH, !attr_value_cons.
  unfold tag_attr.
  destruct (attr_value "k" attr), (attr_value "v" attr); cbn;
    by_name a; done.
Qed.

Lemma UserName_attrs attr : forall m,
  UserName (foldl setElemMetadata_attr m attr)
  = default (UserName m) (attr_value "user" attr).
Proof.
  induction attr as [|a attr IH]; intros m; [done|].
  cbn [foldl]. rewrite IH, attr_value_cons.
  destruct (attr_value "user" attr); [done|].
  unfold setElemMetadata_attr. by_name a; done.
Qed.

Lemma Meta_setElemMetadata attr e :
  setElemMetadata attr e
  = mkOSMElem (Id e) (Tags e) (feature_meta true attr).
Proof.
  unfold setElemMetadata, set_Meta, feature_meta, int_attr. do 2 f_equal.
  pose proof (Metadata_attrs attr Metadata_zero) as HM. cbn zeta in HM.
  destruct HM as (Hv & Hu & Hc & Ht).
  pose proof (UserName_attrs attr Metadata_zero) as Hn.
  destruct (foldl setElemMetadata_attr Metadata_zero attr) as [u n v t c].
  cbn in *. by subst.
Qed.

(** The scratch elements a start tag builds from fresh ones. *)
Lemma node_attr_zero attr :
  foldl node_attr Node_zero attr
  = mkNode (mkOSMElem (int_attr "id" attr) None None)
      (float_attr "lat" attr) (float_attr "lon" attr).
Proof.
  pose proof (Id_node_attr attr Node_zero) as Hi.
  pose proof (Lat_node_attr attr Node_zero) as Hlat.
  pose proof (Long_node_attr attr Node_zero) as Hlon.
  destruct (rest_node_attr attr Node_zero) as [Ht Hm].
  destruct (foldl node_attr Node_zero attr) as [[i t m] lat lon].
  cbn in *. unfold int_attr, float_attr. by subst.
Qed.

Lemma id_attr_zero attr :
  foldl id_attr OSMElem_zero attr = mkOSMElem (int_attr "id" attr) None None.
Proof.
  pose proof (Id_id_attr attr OSMElem_zero) as Hi.
  destruct (rest_id_attr attr OSMElem_zero) as [Ht Hm].
  destruct (foldl id_attr OSMElem_zero attr) as [i t m].
  cbn in *. unfold int_attr. by subst.
Qed.

(** A child changes the state by its start tag alone. *)
Lemma run_child_start md st c :
  newElem st = false ->
  run md st (child_tokens c)
  = ([], Some (startElement md st (mkName "" (child_name (child_kind c)))
                 (child_attr c))).
Proof.
  intros Hn. unfold child_tokens, element. cbn [app run round].
  rewrite endElement_other;
    [done|by rewrite startElement_newElem|by destruct (child_kind c)..].
Qed.

(** What the children of an element leave in the state. *)
Lemma run_children_state md cs : forall a m d t n w r,
  run md (mkState a m d t false n w r) (concat (map child_tokens cs))
  = ([], Some (mkState a m d
                 (foldl (fun t kv => <[kv.1 := kv.2]> t) t
                    (map tag_pair
                       (map child_attr (List.filter (is_child CTag) cs))))
                 false n
                 (mkWay (Way_OSMElem w)
                    (Refs w ++
                     flat_map (fun attr =>
                         map (fun a => fst (strconv.ParseInt (Value a)))
                           (filter (fun a => Local (Attr_Name a) = "ref") attr))
                       (map child_attr (List.filter (is_child CNd) cs))))
                 (mkRelation (Relation_OSMElem r)
                    (Members r ++
                     omap (member_attrs Member_zero)
                       (map child_attr (List.filter (is_child CMember) cs)))))).
Proof.
  induction cs as [|[k attr] cs IH]; intros a m d t n w r.
  - cbn. rewrite !app_nil_r. by destruct w, r.
  - cbn [map concat]. rewrite run_app, run_child_start by done.
    cbn [child_kind child_attr child_name].
    destruct k; unfold startElement;
      cbn [Local String.eqb Ascii.eqb Bool.eqb child_name].
    + rewrite (pair_tag_attr attr ("", "")). cbn [fst snd].
      unfold set_tags. cbn [add mod_ del tags newElem node way rel].
      rewrite IH. cbn. reflexivity.
    + unfold set_way. cbn [add mod_ del tags newElem node way rel].
      rewrite IH. cbn [fst snd app]. do 3 f_equal.
      rewrite OSMElem_nd_attr, Refs_nd_attr.
      cbn. by rewrite <- app_assoc.
    + destruct (member_attrs Member_zero attr) as [mem|] eqn:Hm.
      * unfold set_rel. cbn [add mod_ del tags newElem node way rel].
        rewrite IH. cbn [fst snd app]. do 3 f_equal.
        cbn. rewrite Hm. by rewrite <- app_assoc.
      * rewrite IH. cbn [fst snd app]. do 3 f_equal.
        cbn. by rewrite Hm.
Qed.

Lemma no_children f k :
  conforming f = true -> fits (kind f) k = false ->
  List.filter (is_child k) (children f) = [].
Proof.
  unfold conforming. intros Hc Hk.
  induction (children f) as [|c cs IH]; [done|].
  cbn in Hc. apply andb_true_iff in Hc as [Hc Hcs]. cbn.
  destruct (is_child k c) eqn:Hi; [|by apply IH].
  exfalso. unfold is_child in Hi.
  destruct k, (child_kind c); try done; congruence.
Qed.

Lemma tag_map_not_empty pairs : forall t : gmap string string,
  t <> ∅ \/ pairs <> [] ->
  foldl (fun t kv => <[kv.1 := kv.2]> t) t pairs <> ∅.
Proof.
  induction pairs as [|kv pairs IH]; intros t Ht; cbn [foldl].
  - by destruct Ht.
  - apply IH. left. apply insert_non_empty.
Qed.

Lemma attach_tag_map pairs i mt :
  attach_tags (tag_map pairs) (mkOSMElem i None mt)
  = mkOSMElem i (tags_or_nil pairs) mt.
Proof.
  unfold attach_tags. destruct pairs as [|kv pairs].
  - by rewrite bool_decide_eq_false_2 by (cbn; rewrite map_size_empty; lia).
  - rewrite bool_decide_eq_true_2; [done|].
    assert (tag_map (kv :: pairs) <> ∅) as Hne
      by (apply tag_map_not_empty; by right).
    apply map_size_non_empty_iff in Hne. lia.
Qed.

Lemma reset_tags (t : gmap string string) :
  (if bool_decide (0 < size t)%nat then ∅ else t) = ∅.
Proof.
  case_bool_decide as Hs; [done|].
  apply map_size_empty_iff. lia.
Qed.

Ltac finish_feature :=
  change (foldl (fun t kv => <[kv.1 := kv.2]> t) ∅ ?l) with (tag_map l);
  rewrite attach_tag_map; unfold feature_tags, children_of;
  case_bool_decide;
  [reflexivity
  |match goal with
   | Hs : ¬ (0 < size ?T)%nat |- _ =>
       let HT := fresh in
       assert (T = ∅) as HT by (apply map_size_empty_iff; lia);
       rewrite HT; reflexivity
   end].

(** One element, read from the fresh state: its event, and the state is
    fresh again. *)
Lemma run_feature_fresh md o f :
  conforming f = true ->
  run md (fresh o) (feature_tokens f) = ([feature_event md o f], Some (fresh o)).
Proof.
  intros Hc. unfold feature_tokens, element, feature_event, fresh.
  destruct (op_flags o) as [[a m] d]. cbn [run round].
  destruct (kind f) eqn:Hk; cbn [kind_name].
  - unfold startElement. cbn [Local String.eqb Ascii.eqb Bool.eqb].
    unfold set_node. cbn [add mod_ del tags newElem node way rel].
    rewrite node_attr_zero.
    destruct md; cbn [Node_OSMElem Lat Long];
      rewrite ?Meta_setElemMetadata; cbn [Id Tags];
      rewrite run_app, run_children_state; cbn [fst snd app];
      rewrite (no_children f CNd), (no_children f CMember) by (by rewrite ?Hk);
      cbn [map flat_map omap app run round];
      unfold endElement, emit; cbn [Local String.eqb Ascii.eqb Bool.eqb];
      unfold set_newElem, set_node, set_tags;
      cbn [add mod_ del tags newElem node way rel Node_OSMElem Lat Long
           DNode DWay DRel Add Mod Del DiffElem_zero option_list app fst snd];
      finish_feature.
  - unfold startElement. cbn [Local String.eqb Ascii.eqb Bool.eqb].
    unfold set_way. cbn [add mod_ del tags newElem node way rel].
    change (Way_OSMElem Way_zero) with OSMElem_zero.
    change (Refs Way_zero) with (@nil Z).
    rewrite id_attr_zero.
    destruct md; rewrite ?Meta_setElemMetadata; cbn [Id Tags];
      rewrite run_app, run_children_state; cbn [fst snd app];
      rewrite (no_children f CMember) by (by rewrite ?Hk);
      cbn [map flat_map omap app run round];
      unfold endElement, emit; cbn [Local String.eqb Ascii.eqb Bool.eqb];
      unfold set_newElem, set_way, set_tags;
      cbn [add mod_ del tags newElem node way rel Way_OSMElem Refs
           DNode DWay DRel Add Mod Del DiffElem_zero option_list app fst snd];
      unfold feature_refs; finish_feature.
  - unfold startElement. cbn [Local String.eqb Ascii.eqb Bool.eqb].
    unfold set_rel. cbn [add mod_ del tags newElem node way rel].
    change (Relation_OSMElem Relation_zero) with OSMElem_zero.
    change (Members Relation_zero) with (@nil Member).
    rewrite id_attr_zero.
    destruct md; rewrite ?Meta_setElemMetadata; cbn [Id Tags];
      rewrite run_app, run_children_state; cbn [fst snd app];
      rewrite (no_children f CNd) by (by rewrite ?Hk);
      cbn [map flat_map omap app run round];
      unfold endElement, emit; cbn [Local String.eqb Ascii.eqb Bool.eqb];
      unfold set_newElem, set_rel, set_tags;
      cbn [add mod_ del tags newElem node way rel Relation_OSMElem Members
           DNode DWay DRel Add Mod Del DiffElem_zero option_list app fst snd];
      unfold feature_members; finish_feature.
Qed.

Lemma run_features_fresh md o fs :
  forallb conforming fs = true ->
  run md (fresh o) (concat (map feature_tokens fs))
  = (map (feature_event md o) fs, Some (fresh o)).
Proof.
  induction fs as [|f fs IH]; [done|].
  cbn [forallb]. intros [Hf Hfs]%andb_true_iff.
  cbn [map concat]. rewrite run_app, run_feature_fresh by done.
  by rewrite IH.
Qed.

Lemma run_section_fresh md s a m d :
  forallb conforming (features s) = true ->
  run md (mkState a m d ∅ false Node_zero Way_zero Relation_zero)
    (section_tokens s)
  = (map (feature_event md (op s)) (features s), Some (fresh (op s))).
Proof.
  intros Hs. unfold section_tokens, element. cbn [run round].
  assert (startElement md
            (mkState a m d ∅ false Node_zero Way_zero Relation_zero)
            (mkName "" (op_name (op s))) (section_attr s) = fresh (op s)) as ->
    by (by destruct (op s)).
  rewrite run_app, run_features_fresh by done. cbn [run round fst snd].
  rewrite endElement_other by (by destruct (op s)).
  by rewrite !app_nil_r.
Qed.

Lemma run_sections_fresh md ss : forall a m d,
  forallb (fun s => forallb conforming (features s)) ss = true ->
  exists a' m' d',
    run md (mkState a m d ∅ false Node_zero Way_zero Relation_zero)
      (concat (map section_tokens ss))
    = (concat (map (fun s => map (feature_event md (op s)) (features s)) ss),
       Some (mkState a' m' d' ∅ false Node_zero Way_zero Relation_zero)).
Proof.
  induction ss as [|s ss IH]; intros a m d Hss; [by exists a, m, d|].
  cbn [forallb] in Hss. apply andb_true_iff in Hss as [Hs Hss].
  cbn [map concat]. rewrite run_app, run_section_fresh by done.
  unfold fresh. destruct (op_flags (op s)) as [[a1 m1] d1].
  destruct (IH a1 m1 d1 Hss) as (a' & m' & d' & ->).
  by exists a', m', d'.
Qed.

Lemma file_events md d :
  concat (map (fun s => map (feature_event md (op s)) (features s)) (sections d))
  = map (fun x => feature_event md x.1 x.2) (file_features d).
Proof.
  unfold file_features. induction (sections d) as [|s ss IH]; [done|].
  cbn [map concat]. rewrite map_app, IH. f_equal. by rewrite map_map.
Qed.

(** The events of a file whose elements conform to the format. *)
Lemma parse_conforming md d toks err :
  filter (fun t => is_tag t = true) toks = tokens d ->
  conforming_file d = true ->
  parse (Tokens toks err) md
  = map SendElem (map (fun x => feature_event md x.1 x.2) (file_features d))
    ++ closing.
Proof.
  intros Htoks Hd. cbn [parse]. rewrite loop_run, run_tags, Htoks.
  unfold tokens, element. cbn [run round].
  assert (startElement md init (mkName "" "osmChange") (file_attr d) = init)
    as -> by done.
  rewrite run_app.
  destruct (run_sections_fresh md (sections d) false false false Hd)
    as (a & m & d' & Hrun).
  unfold init. rewrite Hrun. cbn [run round fst snd].
  rewrite endElement_file by done. cbn [fst snd].
  by rewrite !app_nil_r, file_events.
Qed.

(** X12: in a file of the format where tags stand anywhere, nd only in
    ways and member only in relations, the event of an element is made of
    that element alone and of the operation of its section: the identifier
    and, for a node, the coordinates of its start tag, the provenance when
    asked for, its own tags (nil without a tag child), the references of
    its own nd children, the members of its own member children.  Nothing
    passes from one element to the next. *)
Theorem X12_each_event_reads_its_own_element (md : bool) (d : File)
    (toks : list Token) (err : string) :
  filter (fun t => is_tag t = true) toks = tokens d ->
  conforming_file d = true ->
  parse (Tokens toks err) md
  = map SendElem (map (fun x => feature_event md x.1 x.2) (file_features d))
    ++ closing.
Proof. apply parse_conforming. Qed.

Lemma tag_map_snoc pairs kv :
  tag_map (pairs ++ [kv]) = <[kv.1 := kv.2]> (tag_map pairs).
Proof. unfold tag_map. by rewrite foldl_snoc. Qed.

Lemma tag_map_lookup pairs k :
  tag_map pairs !! k
  = snd <$> last (List.filter (fun kv => String.eqb kv.1 k) pairs).
Proof.
  induction pairs as [|[k' v'] pairs IH] using rev_ind; [done|].
  rewrite tag_map_snoc, List.filter_app. cbn [List.filter fst snd].
  destruct (String.eqb_spec k' k) as [->|Hne].
  - by rewrite lookup_insert_eq, last_snoc.
  - by rewrite lookup_insert_ne, app_nil_r.
Qed.

Lemma event_tags_feature md o f :
  event_tags (feature_event md o f) = feature_tags f.
Proof.
  unfold feature_event, event_tags.
  by destruct (op_flags o) as [[a m] d'], (kind f).
Qed.

Lemma elems_sends (evs : list DiffElem) :
  elems (map SendElem evs ++ closing) = evs.
Proof.
  unfold elems. rewrite omap_app. cbn. rewrite app_nil_r.
  induction evs as [|e evs IH]; [done|]. cbn. by rewrite IH.
Qed.

(** X13: in such a file an event has no tag map exactly when its element
    has no tag child; and when the same key comes in several tag children
    the last of them gives the value. *)
Theorem X13_last_tag_wins (md : bool) (d : File) (toks : list Token)
    (err : string) (i : nat) (x : Op * Feature) (e : DiffElem) :
  filter (fun t => is_tag t = true) toks = tokens d ->
  conforming_file d = true ->
  file_features d !! i = Some x ->
  elems (parse (Tokens toks err) md) !! i = Some e ->
  (event_tags e = None <-> children_of CTag x.2 = []) /\
  forall k, event_tags e ≫= (fun t => t !! k) = last_tag x.2 k.
Proof.
  intros Htoks Hd Hx He.
  rewrite (parse_conforming md d toks err Htoks Hd) in He.
  assert (elems (map SendElem
            (map (fun x => feature_event md x.1 x.2) (file_features d))
            ++ closing)
          = map (fun x => feature_event md x.1 x.2) (file_features d)) as Hel.
  { apply elems_sends. }
  rewrite Hel, list_lookup_fmap, Hx in He. cbn in He. injection He as <-.
  rewrite event_tags_feature. unfold feature_tags, last_tag.
  destruct (children_of CTag x.2) as [|c cs]; [done|].
  cbn [map tags_or_nil]. split; [split; intros; discriminate|].
  intros k. cbn [mbind option_bind]. apply tag_map_lookup.
Qed.

(** ** Children in elements of another kind *)

Lemma run_feature_pending md o f rs ms :
  run md (pending (op_flags o) rs ms) (feature_tokens f)
  = ([carried_event md o f (rs ++ feature_refs f) (ms ++ feature_members f)],
     Some (pending (op_flags o)
             (match kind f with KWay => [] | _ => rs ++ feature_refs f end)
             (match kind f with
              | KRelation => [] | _ => ms ++ feature_members f end))).
Proof.
  unfold feature_tokens, element, carried_event, pending.
  destruct (op_flags o) as [[a m] d]. cbn [run round].
  destruct (kind f) eqn:Hk; cbn [kind_name].
  - unfold startElement. cbn [Local String.eqb Ascii.eqb Bool.eqb].
    unfold set_node. cbn [add mod_ del tags newElem node way rel].
    rewrite node_attr_zero.
    destruct md; cbn [Node_OSMElem Lat Long];
      rewrite ?Meta_setElemMetadata; cbn [Id Tags];
      rewrite run_app, run_children_state; cbn [fst snd app];
      cbn [run round];
      unfold endElement, emit; cbn [Local String.eqb Ascii.eqb Bool.eqb];
      unfold set_newElem, set_node, set_tags;
      cbn [add mod_ del tags newElem node way rel Node_OSMElem Lat Long
           Way_OSMElem Refs Relation_OSMElem Members
           DNode DWay DRel Add Mod Del DiffElem_zero option_list app fst snd];
      unfold feature_refs, feature_members; finish_feature.
  - unfold startElement. cbn [Local String.eqb Ascii.eqb Bool.eqb].
    unfold set_way. cbn [add mod_ del tags newElem node way rel
                         Way_OSMElem Refs].
    rewrite id_attr_zero.
    destruct md; rewrite ?Meta_setElemMetadata; cbn [Id Tags];
      rewrite run_app, run_children_state; cbn [fst snd app];
      cbn [run round];
      unfold endElement, emit; cbn [Local String.eqb Ascii.eqb Bool.eqb];
      unfold set_newElem, set_way, set_tags;
      cbn [add mod_ del tags newElem node way rel Way_OSMElem Refs
           Relation_OSMElem Members
           DNode DWay DRel Add Mod Del DiffElem_zero option_list app fst snd];
      unfold feature_refs, feature_members; finish_feature.
  - unfold startElement. cbn [Local String.eqb Ascii.eqb Bool.eqb].
    unfold set_rel. cbn [add mod_ del tags newElem node way rel
                         Relation_OSMElem Members].
    rewrite id_attr_zero.
    destruct md; rewrite ?Meta_setElemMetadata; cbn [Id Tags];
      rewrite run_app, run_children_state; cbn [fst snd app];
      cbn [run round];
      unfold endElement, emit; cbn [Local String.eqb Ascii.eqb Bool.eqb];
      unfold set_newElem, set_rel, set_tags;
      cbn [add mod_ del tags newElem node way rel Way_OSMElem Refs
           Relation_OSMElem Members
           DNode DWay DRel Add Mod Del DiffElem_zero option_list app fst snd];
      unfold feature_refs, feature_members; finish_feature.
Qed.

Lemma run_features_pending md o fs : forall rs ms,
  exists rs' ms',
    run md (pending (op_flags o) rs ms) (concat (map feature_tokens fs))
    = (carried_events md rs ms (map (fun f => (o, f)) fs),
       Some (pending (op_flags o) rs' ms')) /\
    forall l, carried_events md rs ms (map (fun f => (o, f)) fs ++ l)
              = carried_events md rs ms (map (fun f => (o, f)) fs)
                ++ carried_events md rs' ms' l.
Proof.
  induction fs as [|f fs IH]; intros rs ms; [by exists rs, ms|].
  cbn [map concat]. rewrite run_app, run_feature_pending.
  destruct (IH (match kind f with KWay => [] | _ => rs ++ feature_refs f end)
              (match kind f with
               | KRelation => [] | _ => ms ++ feature_members f end))
    as (rs' & ms' & -> & Happ).
  exists rs', ms'. split; [done|].
  intros l. cbn [app carried_events]. by rewrite Happ.
Qed.

Lemma run_sections_pending md ss : forall fl rs ms,
  exists fl' rs' ms',
    run md (pending fl rs ms) (concat (map section_tokens ss))
    = (carried_events md rs ms
         (concat (map (fun s => map (fun f => (op s, f)) (features s)) ss)),
       Some (pending fl' rs' ms')).
Proof.
  induction ss as [|s ss IH]; intros fl rs ms; [by exists fl, rs, ms|].
  cbn [map concat]. rewrite run_app.
  unfold section_tokens at 1, element. cbn [run round].
  assert (startElement md (pending fl rs ms) (mkName "" (op_name (op s)))
            (section_attr s) = pending (op_flags (op s)) rs ms) as ->
    by (by destruct fl as [[? ?] ?], (op s)).
  rewrite run_app.
  destruct (run_features_pending md (op s) (features s) rs ms)
    as (rs1 & ms1 & -> & Happ).
  cbn [run round fst snd].
  rewrite endElement_other by (by destruct (op s)).
  cbn [fst snd]. rewrite !app_nil_r.
  destruct (IH (op_flags (op s)) rs1 ms1) as (fl' & rs' & ms' & ->).
  exists fl', rs', ms'. cbn [fst snd]. by rewrite Happ.
Qed.

(** X16: in a file of sections and elements whose nd and member children
    may stand in elements of any kind, the identifier, coordinates,
    provenance and tags of an event are those of its own element, a way is
    sent with the references of all nd children read since the last way
    closed, and a relation with the members read since the last relation
    closed: an nd in a node passes to the next way. *)
Theorem X16_nd_and_member_wait_for_their_kind (md : bool) (d : File)
    (toks : list Token) (err : string) :
  filter (fun t => is_tag t = true) toks = tokens d ->
  parse (Tokens toks err) md
  = map SendElem (carried_events md [] [] (file_features d)) ++ closing.
Proof.
  intros Htoks. cbn [parse]. rewrite loop_run, run_tags, Htoks.
  unfold tokens, element. cbn [run round].
  assert (startElement md init (mkName "" "osmChange") (file_attr d)
          = pending (false, false, false) [] []) as -> by done.
  rewrite run_app.
  destruct (run_sections_pending md (sections d) (false, false, false) [] [])
    as (fl' & rs' & ms' & ->).
  cbn [run round fst snd]. rewrite endElement_file by done. cbn [fst snd].
  by rewrite !app_nil_r.
Qed.

End files.

(** ** The theorems at work on the sample *)

#[local] Existing Instance sample.extern.

Lemma X9_witness :
  @parse sample.extern
    (Tokens (sample.scenario_A ++ [sample.start "node" [("id", "7")]]) "EOF")
    false
  = @parse sample.extern (Tokens sample.scenario_A "unexpected EOF") false.
Proof.
  apply (@X9_nothing_is_read_after_the_end sample.extern false
           [ sample.start "osmChange" []; sample.start "modify" [];
             sample.start "node" [("id", "1"); ("lat", "1.0"); ("lon", "2.0")];
             sample.start "tag" [("k", "amenity"); ("v", "restaurant")];
             sample.end_ "tag"; sample.end_ "node"; sample.end_ "modify" ]
           [sample.start "node" [("id", "7")]] []
           (mkName "" "osmChange") "EOF" "unexpected EOF").
  reflexivity.
Defined.

Lemma X11_witness : event_tags sample.event_A <> Some ∅.
Proof.
  apply (@X11_tags_are_nil_or_not_empty sample.extern false
           (Tokens sample.scenario_A "EOF") sample.event_A).
  change (elems (parse (Tokens sample.scenario_A "EOF") false))
    with [sample.event_A].
  apply list_elem_of_here.
Defined.

Lemma X12_witness :
  @parse sample.extern (Tokens sample.change_tokens "EOF") true
  = map SendElem
      (map (fun x => feature_event true x.1 x.2)
         (file_features sample.change_file))
    ++ closing.
Proof.
  apply (@X12_each_event_reads_its_own_element sample.extern true
           sample.change_file sample.change_tokens "EOF").
  - vm_compute. reflexivity.
  - reflexivity.
Defined.

Lemma X13_witness :
  (event_tags (@feature_event sample.extern false Create sample_more.cafe) = None
   <-> children_of CTag sample_more.cafe = []) /\
  forall k,
    event_tags (@feature_event sample.extern false Create sample_more.cafe)
      ≫= (fun t => t !! k)
    = last_tag sample_more.cafe k.
Proof.
  apply (@X13_last_tag_wins sample.extern false sample.change_file
           sample.change_tokens "EOF" 0%nat (Create, sample_more.cafe)
           (@feature_event sample.extern false Create sample_more.cafe)).
  - vm_compute. reflexivity.
  - reflexivity.
  - reflexivity.
  - reflexivity.
Defined.


Lemma X15_witness :
  Forall int64
    (event_ints (@mkDiffElem sample.extern true false false
                   (Some (mkNode (mkOSMElem 9223372036854775807 None None)
                            (0, O) (0, O)))
                   None None)).
Proof.
  apply (@X15_integers_are_int64 sample.extern false
           (Tokens sample.big_id "EOF")).
  change (elems (parse (Tokens sample.big_id "EOF") false))
    with [@mkDiffElem sample.extern true false false
            (Some (mkNode (mkOSMElem 9223372036854775807 None None)
                     (0, O) (0, O)))
            None None].
  apply list_elem_of_here.
Defined.

Lemma X16_witness :
  @parse sample.extern (Tokens (tokens sample_more.stray_file) "EOF") false
  = map SendElem
      (carried_events false [] [] (file_features sample_more.stray_file))
    ++ closing.
Proof.
  apply (@X16_nd_and_member_wait_for_their_kind sample.extern false
           sample_more.stray_file (tokens sample_more.stray_file) "EOF").
  vm_compute. reflexivity.
Defined.

(** The nd of the node is sent with the way. *)
Example stray_nd :
  elems (@Parse sample.extern (Tokens (tokens sample_more.stray_file) "EOF"))
  = [ mkDiffElem true false false
        (Some (mkNode (mkOSMElem 1 None None) (0, O) (0, O))) None None;
      mkDiffElem true false false None
        (Some (mkWay (mkOSMElem 2 None None) [9; 1])) None ].
Proof. reflexivity. Qed.

End parser_more.

(** * The order of the attributes *)

Module parser_attrs.
Import xml element parser osc events reading parser_spec parser_more.

Section attrs.
Context `{Extern}.

Lemma attr_value_None n attr :
  n ∉ attr_names attr -> attr_value n attr = None.
Proof.
  intros Hn. unfold attr_value.
  assert (filter (fun a => Local (Attr_Name a) = n) attr = []) as ->; [|done].
  induction attr as [|a attr IH]; [done|].
  cbn in Hn. apply not_elem_of_cons in Hn as [Hne Hn].
  rewrite filter_cons_False by done. by apply IH.
Qed.

Lemma filter_name_NoDup n attr :
  NoDup (attr_names attr) ->
  (length (filter (fun a => Local (Attr_Name a) = n) attr) <= 1)%nat.
Proof.
  induction attr as [|a attr IH]; [cbn; lia|].
  cbn [attr_names fmap list_fmap]. intros [Hnotin Hnd]%NoDup_cons.
  destruct (decide (Local (Attr_Name a) = n)) as [Heq|Hne].
  - rewrite filter_cons_True by done.
    assert (filter (fun a => Local (Attr_Name a) = n) attr = []) as ->;
      [|cbn; lia].
    rewrite <- Heq in *. clear IH Hnd.
    induction attr as [|b attr IH]; [done|].
    cbn in Hnotin. apply not_elem_of_cons in Hnotin as [Hne Hn].
    rewrite filter_cons_False by done. by apply IH.
  - rewrite filter_cons_False by done. by apply IH.
Qed.

(** With distinct names, the attributes of one name are the same list in
    every order. *)
Lemma filter_name_perm n attr attr' :
  NoDup (attr_names attr) -> attr ≡ₚ attr' ->
  filter (fun a => Local (Attr_Name a) = n) attr
  = filter (fun a => Local (Attr_Name a) = n) attr'.
Proof.
  intros Hnd Hp. pose proof (filter_name_NoDup n attr Hnd) as Hlen.
  assert (filter (fun a => Local (Attr_Name a) = n) attr
          ≡ₚ filter (fun a => Local (Attr_Name a) = n) attr') as Hf
    by (by rewrite Hp).
  destruct (filter (fun a => Local (Attr_Name a) = n) attr) as [|x [|y l]].
  - by apply Permutation_nil_l in Hf.
  - by apply Permutation_singleton_l in Hf.
  - cbn in Hlen. lia.
Qed.

Lemma attr_value_perm n attr attr' :
  NoDup (attr_names attr) -> attr ≡ₚ attr' ->
  attr_value n attr = attr_value n attr'.
Proof.
  intros Hnd Hp. unfold attr_value. by rewrite (filter_name_perm n attr attr').
Qed.

Lemma member_attrs_NoDup attr : forall m,
  NoDup (attr_names attr) ->
  member_attrs m attr
  = member_of m (attr_value "type" attr) (attr_value "ref" attr)
      (attr_value "role" attr).
Proof.
  induction attr as [|a attr IH]; intros m Hnd.
  - by destruct m.
  - cbn [attr_names fmap list_fmap] in Hnd.
    apply NoDup_cons in Hnd as [Hnotin Hnd].
    pose proof (fun m' => IH m' Hnd) as Hrest.
    assert (forall n, Local (Attr_Name a) = n -> attr_value n attr = None)
      as Hnone by (intros n <-; by apply attr_value_None).
    cbn [member_attrs]. rewrite !attr_value_cons. unfold attr_is.
    destruct (String.eqb_spec (Local (Attr_Name a)) "type") as [E1|E1];
      [rewrite (Hnone _ E1) in *; rewrite E1
      |destruct (String.eqb_spec (Local (Attr_Name a)) "role") as [E2|E2];
        [rewrite (Hnone _ E2) in *; rewrite E2
        |destruct (String.eqb_spec (Local (Attr_Name a)) "ref") as [E3|E3];
          [rewrite (Hnone _ E3) in *|]]];
      destruct (attr_value "type" attr) as [tv|];
      destruct (attr_value "ref" attr) as [rv|];
      destruct (attr_value "role" attr) as [ro|];
      cbn; unfold member_of; cbn;
      repeat (first
        [ rewrite Hrest
        | match goal with
          | |- context [MemberTypeValues !! ?t] =>
              destruct (MemberTypeValues !! t) eqn:?
          | |- context [strconv.ParseInt ?x] =>
              destruct (strconv.ParseInt x) as [? [?|]] eqn:?
          end ];
        unfold member_of; cbn);
      congruence.
Qed.

Section order.
Variables attr attr' : list Attr.
Hypothesis distinct : NoDup (attr_names attr).
Hypothesis same : attr ≡ₚ attr'.

Lemma value_perm n : attr_value n attr = attr_value n attr'.
Proof. by apply attr_value_perm. Qed.

Lemma distinct_perm : NoDup (attr_names attr').
Proof. unfold attr_names. by rewrite <- same. Qed.

Lemma node_attr_perm n : foldl node_attr n attr = foldl node_attr n attr'.
Proof.
  pose proof (Id_node_attr attr n) as Hi.
  pose proof (Lat_node_attr attr n) as Hlat.
  pose proof (Long_node_attr attr n) as Hlon.
  destruct (rest_node_attr attr n) as [Ht Hm].
  pose proof (Id_node_attr attr' n) as Hi'.
  pose proof (Lat_node_attr attr' n) as Hlat'.
  pose proof (Long_node_attr attr' n) as Hlon'.
  destruct (rest_node_attr attr' n) as [Ht' Hm'].
  rewrite <- !value_perm in *.
  destruct (foldl node_attr n attr) as [[i t m] lat lon],
    (foldl node_attr n attr') as [[i' t' m'] lat' lon'].
  cbn in *. congruence.
Qed.

Lemma id_attr_perm e : foldl id_attr e attr = foldl id_attr e attr'.
Proof.
  pose proof (Id_id_attr attr e) as Hi.
  destruct (rest_id_attr attr e) as [Ht Hm].
  pose proof (Id_id_attr attr' e) as Hi'.
  destruct (rest_id_attr attr' e) as [Ht' Hm'].
  rewrite <- !value_perm in *.
  destruct (foldl id_attr e attr) as [i t m],
    (foldl id_attr e attr') as [i' t' m'].
  cbn in *. congruence.
Qed.

Lemma setElemMetadata_perm e : setElemMetadata attr e = setElemMetadata attr' e.
Proof.
  rewrite !Meta_setElemMetadata. unfold feature_meta, int_attr.
  by rewrite !value_perm.
Qed.

Lemma nd_attr_perm w : foldl nd_attr w attr = foldl nd_attr w attr'.
Proof.
  pose proof (Refs_nd_attr attr w) as Hr.
  pose proof (OSMElem_nd_attr attr w) as He.
  pose proof (Refs_nd_attr attr' w) as Hr'.
  pose proof (OSMElem_nd_attr attr' w) as He'.
  rewrite <- (filter_name_perm "ref" attr attr' distinct same) in Hr'.
  destruct (foldl nd_attr w attr) as [e rs], (foldl nd_attr w attr') as [e' rs'].
  cbn in *. congruence.
Qed.

Lemma member_attrs_perm m : member_attrs m attr = member_attrs m attr'.
Proof.
  rewrite !member_attrs_NoDup; [|apply distinct_perm|done].
  by rewrite !value_perm.
Qed.

Lemma tag_attr_perm kv : foldl tag_attr kv attr = foldl tag_attr kv attr'.
Proof. rewrite !pair_tag_attr. by rewrite !value_perm. Qed.

(** X17: when the attributes of a start tag have distinct names, their
    order does not matter: the tag changes the state in the same way for
    every order of them. *)
Theorem X17_attribute_order_does_not_matter (md : bool) (st : State)
    (name : Name) :
  startElement md st name attr = startElement md st name attr'.
Proof.
  unfold startElement.
  rewrite node_attr_perm, !id_attr_perm, !setElemMetadata_perm, nd_attr_perm,
    member_attrs_perm, tag_attr_perm.
  reflexivity.
Qed.

End order.
End attrs.

Lemma X17_witness :
  @startElement sample.extern true init (mkName "" "node")
    (sample.attrs [("lon", "2.0"); ("id", "1"); ("lat", "1.0")])
  = @startElement sample.extern true init (mkName "" "node")
      (sample.attrs [("id", "1"); ("lat", "1.0"); ("lon", "2.0")]).
Proof.
  apply (@X17_attribute_order_does_not_matter sample.extern
           (sample.attrs [("lon", "2.0"); ("id", "1"); ("lat", "1.0")])
           (sample.attrs [("id", "1"); ("lat", "1.0"); ("lon", "2.0")])).
  - cbn. repeat (apply NoDup_cons; split; [|]);
      try apply NoDup_nil_2;
      rewrite ?elem_of_cons, ?elem_of_nil; intros Hin;
      repeat (destruct Hin as [Hin|Hin]); done.
  - cbn. apply Permutation_cons_append.
Defined.

End parser_attrs.
